(** * nnrecommend: the factorization-machine scoring model and its glue

    A shallow embedding of [nnrecommend/fmachine.py] and of the serving
    command [nnrecommend/cli/recommend.py].

    Tensor elements are exact rationals ([Qc], canonical fractions with
    Leibniz equality); tensors carry their size next to their data, as a
    torch tensor does.  Index tensors hold integers ([Z]). *)

From Stdlib Require Import String.
From Stdlib Require Import List ZArith QArith Qcanon Lia Lqa Permutation Bool.
From Stdlib Require Import SpecFloat Qabs.
Import ListNotations.


(** ** Exceptions and fallible results *)

Inductive exn : Type :=
| IndexError
| AttributeError
| UnsupportedOperation
| NotFoundError
| OtherError (msg : string).

Inductive result (A : Type) : Type :=
| Ok (a : A)
| Raise (e : exn).

Arguments Ok {A} a.
Arguments Raise {A} e.

Definition bind {A B : Type} (r : result A) (k : A -> result B) : result B :=
  match r with
  | Ok a => k a
  | Raise e => Raise e
  end.

Declare Scope result_scope.
Delimit Scope result_scope with result.
Notation "'do' x <- r ; k" := (bind r (fun x => k))
  (at level 10, x name, r at level 100, k at level 200) : result_scope.

(** [mapM f l]: run [f] on every element, left to right, stopping at the
    first exception. *)
Fixpoint mapM {A B : Type} (f : A -> result B) (l : list A) : result (list B) :=
  match l with
  | [] => Ok []
  | a :: l' =>
      match f a with
      | Raise e => Raise e
      | Ok b =>
          match mapM f l' with
          | Raise e => Raise e
          | Ok bs => Ok (b :: bs)
          end
      end
  end.

(** ** Tensors *)

Module Tensor.

Local Open Scope Qc_scope.

(** The constant [0.5]. *)
Definition half : Qc := Q2Qc (1 # 2).

Definition qsum (l : list Qc) : Qc := fold_right Qcplus 0 l.

(** Elementwise combination of two lists of the same length. *)
Fixpoint map2 {A B C : Type} (f : A -> B -> C) (l : list A) (m : list B) : list C :=
  match l, m with
  | a :: l', b :: m' => f a b :: map2 f l' m'
  | _, _ => []
  end.

(** A float tensor of size [(rows2, cols2)]. *)
Record Tensor2 : Type := mkT2 {
  rows2 : nat;
  cols2 : nat;
  data2 : list (list Qc)
}.

(** A float tensor of size [(dim0, dim1, dim2)]. *)
Record Tensor3 : Type := mkT3 {
  dim0 : nat;
  dim1 : nat;
  dim2 : nat;
  data3 : list (list (list Qc))
}.

(** A long tensor of size [(lrows, lcols)]. *)
Record LongTensor2 : Type := mkL2 {
  lrows : nat;
  lcols : nat;
  ldata : list (list Z)
}.

Definition size2 (t : Tensor2) : nat * nat := (rows2 t, cols2 t).

Definition wf2 (t : Tensor2) : Prop :=
  length (data2 t) = rows2 t /\
  Forall (fun r => length r = cols2 t) (data2 t).

Definition wf3 (t : Tensor3) : Prop :=
  length (data3 t) = dim0 t /\
  Forall (fun ex => length ex = dim1 t /\
                    Forall (fun v => length v = dim2 t) ex) (data3 t).

Definition wfL2 (t : LongTensor2) : Prop :=
  length (ldata t) = lrows t /\
  Forall (fun r => length r = lcols t) (ldata t).

(** [torch.sum(x, dim=1)] on a 3-d tensor:
    [out[b][k] = sum_f x[b][f][k]]. *)
Definition sum3_dim1 (x : Tensor3) : Tensor2 :=
  mkT2 (dim0 x) (dim2 x)
    (map (fun ex =>
            map (fun k => qsum (map (fun v => nth k v 0) ex)) (seq 0 (dim2 x)))
         (data3 x)).

(** [torch.sum(x, dim=1, keepdim=True)] on a 2-d tensor. *)
Definition sum2_dim1_keepdim (x : Tensor2) : Tensor2 :=
  mkT2 (rows2 x) 1 (map (fun r => [qsum r]) (data2 x)).

(** [x ** 2], elementwise. *)
Definition sq (a : Qc) : Qc := a * a.

Definition pow2_2 (x : Tensor2) : Tensor2 :=
  mkT2 (rows2 x) (cols2 x) (map (map sq) (data2 x)).

Definition pow2_3 (x : Tensor3) : Tensor3 :=
  mkT3 (dim0 x) (dim1 x) (dim2 x) (map (map (map sq)) (data3 x)).

(** [a - b] and [a + b] for two tensors of the same size. *)
Definition sub2 (a b : Tensor2) : Tensor2 :=
  mkT2 (rows2 a) (cols2 a) (map2 (map2 Qcminus) (data2 a) (data2 b)).

Definition add2 (a b : Tensor2) : Tensor2 :=
  mkT2 (rows2 a) (cols2 a) (map2 (map2 Qcplus) (data2 a) (data2 b)).

(** [c * x] for a scalar [c]. *)
Definition scale2 (c : Qc) (x : Tensor2) : Tensor2 :=
  mkT2 (rows2 x) (cols2 x) (map (map (Qcmult c)) (data2 x)).

(** [x + bias] where [bias] has size [(cols2 x,)]: broadcast over rows. *)
Definition add_bias (x : Tensor2) (bias : list Qc) : Tensor2 :=
  mkT2 (rows2 x) (cols2 x) (map (fun r => map2 Qcplus r bias) (data2 x)).

(** [x.transpose(0, 1)]. *)
Definition transpose (x : Tensor2) : Tensor2 :=
  mkT2 (cols2 x) (rows2 x)
    (map (fun j => map (fun r => nth j r 0) (data2 x)) (seq 0 (cols2 x))).

(** [x.squeeze(1)] on a tensor whose second axis has size one. *)
Definition squeeze1 (x : Tensor2) : list Qc := map (fun r => hd 0 r) (data2 x).

(** [x[:, p, :]]: the fields of every example reordered by [p]. *)
Definition permute_fields (p : list nat) (x : Tensor3) : Tensor3 :=
  mkT3 (dim0 x) (length p) (dim2 x)
    (map (fun ex => map (fun i => nth i ex []) p) (data3 x)).

End Tensor.

Import Tensor.

(** ** [FactorizationMachineOperation] *)

Record FactorizationMachineOperation : Type := mkFMOp {
  reduce_sum : bool
}.

Definition fm_forward (self : FactorizationMachineOperation) (x : Tensor3) : Tensor2 :=
  let square_of_sum := pow2_2 (sum3_dim1 x) in
  let sum_of_square := sum3_dim1 (pow2_3 x) in
  let ix := sub2 square_of_sum sum_of_square in
  let ix := if reduce_sum self then sum2_dim1_keepdim ix else ix in
  scale2 half ix.

(** The row of [ix] for one example [ex] before [reduce_sum]: entry [k] is
    the square of the sum of the fields' [k]-th coordinates minus the sum
    of their squares. *)
Definition ix_row (d : nat) (ex : list (list Qc)) : list Qc :=
  map (fun k => (sq (qsum (map (fun v => nth k v (Q2Qc 0)) ex))
                 - qsum (map (fun v => sq (nth k v (Q2Qc 0))) ex))%Qc)
      (seq 0 d).

(** The brute-force reading of the interaction term: the sum, over all
    unordered pairs of fields [f < g], of the dot product [v_f . v_g]. *)
Module BruteForce.

Local Open Scope Qc_scope.

Fixpoint dot (u v : list Qc) : Qc :=
  match u, v with
  | a :: u', b :: v' => a * b + dot u' v'
  | _, _ => 0
  end.

Fixpoint pairwise_sum (vs : list (list Qc)) : Qc :=
  match vs with
  | [] => 0
  | v :: rest => qsum (map (dot v) rest) + pairwise_sum rest
  end.

End BruteForce.

(** ** [torch.nn.Embedding] *)

(** [tabulate2 n d init]: the [(n, d)] tensor whose entry [(i, j)] is
    [init i j]; the initial values of a parameter are drawn at random by
    torch and enter the model as the function [init]. *)
Definition tabulate2 (n d : nat) (init : nat -> nat -> Qc) : Tensor2 :=
  mkT2 n d (map (fun i => map (init i) (seq 0 d)) (seq 0 n)).

Module Embedding.

(** The table has size [(num_embeddings, embedding_dim)]. *)
Record t : Type := mk {
  weight : Tensor2
}.

Definition num_embeddings (self : t) : nat := rows2 (weight self).
Definition embedding_dim (self : t) : nat := cols2 (weight self).

(** [torch.nn.Embedding(num_embeddings, embedding_dim)]. *)
Definition init (n d : nat) (values : nat -> nat -> Qc) : t :=
  mk (tabulate2 n d values).

(** One looked-up row; an id outside [0, num_embeddings) raises. *)
Definition row (self : t) (i : Z) : result (list Qc) :=
  if ((0 <=? i) && (i <? Z.of_nat (num_embeddings self)))%Z
  then Ok (nth (Z.to_nat i) (data2 (weight self)) [])
  else Raise IndexError.

Definition forward (self : t) (x : LongTensor2) : result Tensor3 :=
  (do d <- mapM (mapM (row self)) (ldata x);
   Ok (mkT3 (lrows x) (lcols x) (embedding_dim self) d))%result.

End Embedding.

(** ** [LinearFeatures] *)

Module LinearFeatures.

Record t : Type := mk {
  fc : Embedding.t;
  bias : list Qc
}.

(** [LinearFeatures(field_dim, output_dim)]; the bias starts at zero. *)
Definition init (field_dim output_dim : nat) (values : nat -> nat -> Qc) : t :=
  mk (Embedding.init field_dim output_dim values) (repeat (Q2Qc 0) output_dim).

Definition forward (self : t) (x : LongTensor2) : result Tensor2 :=
  (do e <- Embedding.forward (fc self) x;
   Ok (add_bias (sum3_dim1 e) (bias self)))%result.

End LinearFeatures.

(** ** Sparse matrices and sparse tensors *)

Module Sparse.

Local Open Scope Qc_scope.

(** A scipy sparse matrix in coordinate format: entry [k] is
    [data[k]] at [(row[k], col[k])]; entries at the same coordinates
    add up. *)
Record spmatrix : Type := mkSp {
  shape : nat * nat;
  row : list nat;
  col : list nat;
  data : list Qc
}.

(** [matrix.tocoo()]: the matrices of this model are in coordinate
    format already. *)
Definition tocoo (m : spmatrix) : spmatrix := m.

(** [sp.identity(n)]. *)
Definition identity (n : nat) : spmatrix :=
  mkSp (n, n) (seq 0 n) (seq 0 n) (repeat 1 n).

(** A graph's edge list: [2 x num_edges] indices. *)
Definition EdgeIndex : Type := (list nat * list nat)%type.

(** A torch sparse COO tensor. *)
Record SparseTensor : Type := mkSt {
  indices : EdgeIndex;
  values : list Qc;
  size : nat * nat
}.

(** [torch.sparse_coo_tensor(indices, values, shape)]. *)
Definition sparse_coo_tensor (ix : EdgeIndex) (v : list Qc) (sh : nat * nat)
  : SparseTensor := mkSt ix v sh.

Definition entries (ix : EdgeIndex) (v : list Qc) : list (nat * nat * Qc) :=
  combine (combine (fst ix) (snd ix)) v.

(** The value of entry [(i, j)]: the sum of what is stored there. *)
Definition get (es : list (nat * nat * Qc)) (i j : nat) : Qc :=
  qsum (map (fun e => if ((fst (fst e) =? i) && (snd (fst e) =? j))%nat
                      then snd e else 0) es).

Definition sp_get (m : spmatrix) : nat -> nat -> Qc :=
  get (entries (row m, col m) (data m)).

Definition st_get (t : SparseTensor) : nat -> nat -> Qc :=
  get (entries (indices t) (values t)).

(** The dense identity matrix: row [i] is the one-hot indicator of
    [i]. *)
Definition eye (n : nat) : Tensor2 :=
  tabulate2 n n (fun i j => if (i =? j)%nat then 1 else 0).

(** [tensor.to_dense()]. *)
Definition to_dense (t : SparseTensor) : Tensor2 :=
  tabulate2 (fst (size t)) (snd (size t)) (st_get t).

(** Row-major order on coordinates. *)
Definition coord_ltb (a b : nat * nat) : bool :=
  ((fst a <? fst b) || ((fst a =? fst b) && (snd a <? snd b)))%nat.

Definition coord_eqb (a b : nat * nat) : bool :=
  ((fst a =? fst b) && (snd a =? snd b))%nat.

Fixpoint insert_entry (e : nat * nat * Qc) (l : list (nat * nat * Qc))
  : list (nat * nat * Qc) :=
  match l with
  | [] => [e]
  | e' :: l' =>
      if coord_eqb (fst e) (fst e') then (fst e', snd e' + snd e) :: l'
      else if coord_ltb (fst e) (fst e') then e :: l
      else e' :: insert_entry e l'
  end.

(** [tensor.coalesce()]: coordinates sorted in row-major order, the
    values of repeated coordinates summed. *)
Definition coalesce (t : SparseTensor) : SparseTensor :=
  let es := fold_left (fun acc e => insert_entry e acc)
              (entries (indices t) (values t)) [] in
  mkSt (map (fun e => fst (fst e)) es, map (fun e => snd (fst e)) es)
       (map snd es) (size t).

(** [torch_geometric.utils.num_nodes.maybe_num_nodes]: one more than
    the largest index that occurs, when no count is given. *)
Definition maybe_num_nodes (edge_index : EdgeIndex) (num_nodes : option nat) : nat :=
  match num_nodes with
  | Some n => n
  | None =>
      match fst edge_index ++ snd edge_index with
      | [] => 0
      | ixs => S (list_max ixs)
      end
  end.

(** [torch_geometric.utils.from_scipy_sparse_matrix]. *)
Definition from_scipy_sparse_matrix (A : spmatrix) : EdgeIndex * list Qc :=
  let A := tocoo A in
  ((row A, col A), data A).

(** [torch_geometric.utils.to_scipy_sparse_matrix]. *)
Definition to_scipy_sparse_matrix
  (edge_index : EdgeIndex) (edge_attr : list Qc) (num_nodes : option nat)
  : spmatrix :=
  let N := maybe_num_nodes edge_index num_nodes in
  mkSp (N, N) (fst edge_index) (snd edge_index) edge_attr.

End Sparse.

Import Sparse.

Definition sparse_scipy_matrix_to_tensor (matrix : spmatrix) : SparseTensor :=
  let matrix := tocoo matrix in
  let indices := (row matrix, col matrix) in
  let values := data matrix in
  let shape := shape matrix in
  sparse_coo_tensor indices values shape.

Definition sparse_tensor_to_scipy_matrix (tensor : SparseTensor) : spmatrix :=
  let tensor := coalesce tensor in
  to_scipy_sparse_matrix (indices tensor) (values tensor) None.

(** ** Layers of torch and torch_geometric

    The layers come from libraries; what the repository reads of them is
    the layout of their parameters, modelled here as the constructors
    build it, and their result, which is left to the class
    [MessagePassing]. *)

Module Linear.

(** [torch.nn.Linear(in_features, out_features, bias=False)]: the weight
    has size [(out_features, in_features)]. *)
Record t : Type := mk {
  in_features : nat;
  out_features : nat;
  weight : Tensor2
}.

Definition init (n_in n_out : nat) (values : nat -> nat -> Qc) : t :=
  mk n_in n_out (tabulate2 n_out n_in values).

End Linear.

Module GCNConv.

(** [GCNConv(in_channels, out_channels)]: the weight has size
    [(in_channels, out_channels)]. *)
Record t : Type := mk {
  training : bool;
  in_channels : nat;
  out_channels : nat;
  weight : Tensor2;
  bias : list Qc
}.

Definition init (n_in n_out : nat) (values : nat -> nat -> Qc) : t :=
  mk true n_in n_out (tabulate2 n_in n_out values) (repeat (Q2Qc 0) n_out).

Definition eval (self : t) : t :=
  mk false (in_channels self) (out_channels self) (weight self) (bias self).

End GCNConv.

Module GATConv.

(** [GATConv(in_channels, out_channels, heads, dropout)]: the outputs
    of the heads are concatenated, so both linear maps go from
    [in_channels] to [heads * out_channels]; [lin_r] is [lin_l]. *)
Record t : Type := mk {
  training : bool;
  in_channels : nat;
  out_channels : nat;
  heads : nat;
  dropout : Qc;
  lin_l : Linear.t;
  lin_r : Linear.t;
  att_l : Tensor2;
  att_r : Tensor2;
  bias : list Qc
}.

Definition init (n_in n_out n_heads : nat) (p : Qc)
  (values att_l_values att_r_values : nat -> nat -> Qc) : t :=
  let lin := Linear.init n_in (n_heads * n_out) values in
  mk true n_in n_out n_heads p lin lin
     (tabulate2 n_heads n_out att_l_values)
     (tabulate2 n_heads n_out att_r_values)
     (repeat (Q2Qc 0) (n_heads * n_out)).

Definition eval (self : t) : t :=
  mk false (in_channels self) (out_channels self) (heads self) (dropout self)
     (lin_l self) (lin_r self) (att_l self) (att_r self) (bias self).

End GATConv.

(** *** Random numbers and dropout *)

(** The state of torch's random number generator, as the stream of
    uniform draws from [0, 1) it will hand out. *)
Definition Generator : Type := nat -> Qc.

Module Dropout.

Local Open Scope Qc_scope.

Definition keep (p : Qc) (gen : Generator) (k : nat) : bool :=
  match gen k ?= p with
  | Lt => false
  | _ => true
  end.

Fixpoint mask_list (p : Qc) (gen : Generator) (k : nat) (l : list Qc) : list Qc :=
  match l with
  | [] => []
  | a :: l' =>
      (if keep p gen k then a * / (1 - p) else 0) :: mask_list p gen (S k) l'
  end.

Fixpoint mask_rows (p : Qc) (gen : Generator) (k : nat) (rows : list (list Qc))
  : list (list Qc) :=
  match rows with
  | [] => []
  | r :: rows' => mask_list p gen k r :: mask_rows p gen (k + length r) rows'
  end.

(** [F.dropout(x, p=p, training=training)]: in training an element is
    zeroed with probability [p] and scaled by [1 / (1 - p)] otherwise;
    outside training the input is returned as it is. *)
Definition dropout (p : Qc) (training : bool) (gen : Generator)
  (x : list (list Qc)) : list (list Qc) :=
  if training then mask_rows p gen 0 x else x.

End Dropout.

(** What the two convolutions compute from their parameters, the node
    features and the edges.  The attention convolution draws random
    numbers in one place only, the dropout it applies to its attention
    coefficients, which it receives here as a function. *)
Class MessagePassing : Type := {
  gcn_conv : GCNConv.t -> SparseTensor -> EdgeIndex -> Tensor2;
  gat_conv : GATConv.t -> (list (list Qc) -> list (list Qc)) ->
             SparseTensor -> EdgeIndex -> Tensor2
}.

(** [t[x]] for a 2-d tensor [t] and a long tensor [x]: the rows of [t]
    picked by the ids of [x]; a negative id counts from the end, an id
    outside [-rows, rows) raises. *)
Definition index_row (t : Tensor2) (i : Z) : result (list Qc) :=
  let n := Z.of_nat (rows2 t) in
  if ((- n <=? i) && (i <? n))%Z
  then Ok (nth (Z.to_nat (if (i <? 0)%Z then i + n else i)%Z) (data2 t) [])
  else Raise IndexError.

Definition index_rows (t : Tensor2) (x : LongTensor2) : result Tensor3 :=
  (do d <- mapM (mapM (index_row t)) (ldata x);
   Ok (mkT3 (lrows x) (lcols x) (cols2 t) d))%result.

(** ** [GraphModel] *)

Module GraphModel.

Inductive conv : Type :=
| GCN (c : GCNConv.t)
| GAT (c : GATConv.t).

Record t : Type := mk {
  training : bool;
  matrix : EdgeIndex;
  features : SparseTensor;
  gcn : conv
}.

(** The random initial values of the convolution's parameters. *)
Record initial : Type := mkInitial {
  weight_values : nat -> nat -> Qc;
  att_l_values : nat -> nat -> Qc;
  att_r_values : nat -> nat -> Qc
}.

Definition init (field_dim embed_dim : nat) (features : SparseTensor)
  (matrix : EdgeIndex) (attention : bool) (v : initial) : t :=
  mk true matrix features
     (if attention
      then GAT (GATConv.init field_dim embed_dim 8 (Q2Qc (6 # 10))
                  (weight_values v) (att_l_values v) (att_r_values v))
      else GCN (GCNConv.init field_dim embed_dim (weight_values v))).

(** [getattr(self.gcn, "lin_r")] and [getattr(self.gcn, "weight")];
    [None] stands for a missing attribute. *)
Definition getattr_lin_r (c : conv) : option Linear.t :=
  match c with
  | GAT c => Some (GATConv.lin_r c)
  | GCN _ => None
  end.

Definition getattr_weight (c : conv) : option Tensor2 :=
  match c with
  | GCN c => Some (GCNConv.weight c)
  | GAT _ => None
  end.

Definition get_embedding_weight (self : t) : result Tensor2 :=
  match getattr_lin_r (gcn self) with
  | Some lin_r => Ok (transpose (Linear.weight lin_r))
  | None =>
      match getattr_weight (gcn self) with
      | Some weight => Ok weight
      | None => Raise AttributeError
      end
  end.

(** [self.gcn(self.features, self.matrix)]. *)
Definition convolve `{MP : MessagePassing} (self : t) (gen : Generator) : Tensor2 :=
  match gcn self with
  | GCN c => gcn_conv c (features self) (matrix self)
  | GAT c =>
      gat_conv c
        (Dropout.dropout (GATConv.dropout c) (GATConv.training c) gen)
        (features self) (matrix self)
  end.

Definition forward `{MP : MessagePassing} (self : t) (gen : Generator)
  (x : LongTensor2) : result Tensor3 :=
  index_rows (convolve self gen) x.

Definition eval (self : t) : t :=
  mk false (matrix self) (features self)
     (match gcn self with
      | GCN c => GCN (GCNConv.eval c)
      | GAT c => GAT (GATConv.eval c)
      end).

End GraphModel.

(** ** [FactorizationMachineModel] *)

Module FactorizationMachineModel.

(** A module other than the two the constructor builds, assigned to
    [model.embedding] from outside: what it has of the two attributes
    [get_embedding_weight] and [weight], and what calling it returns.
    Its method [get_embedding_weight], when it has one, returns a matrix
    or raises. *)
Record foreign : Type := mkForeign {
  foreign_get_embedding_weight : option (result Tensor2);
  foreign_weight : option Tensor2;
  foreign_forward : Generator -> LongTensor2 -> result Tensor3
}.

Inductive source : Type :=
| Plain (e : Embedding.t)
| Graph (g : GraphModel.t)
| Foreign (o : foreign).

Record t : Type := mk {
  training : bool;
  linear : LinearFeatures.t;
  fm : FactorizationMachineOperation;
  embedding : source
}.

(** The random initial values of the parameters; [embedding_values]
    are the ones [xavier_uniform_] leaves in the table. *)
Record initial : Type := mkInitial {
  linear_values : nat -> nat -> Qc;
  embedding_values : nat -> nat -> Qc;
  graph_values : GraphModel.initial
}.

(** [FactorizationMachineModel(field_dim, embed_dim, matrix, device,
    attention)]; the device only says where the tensors are stored. *)
Definition init (field_dim embed_dim : nat) (matrix : option spmatrix)
  (attention : bool) (v : initial) : t :=
  mk true
     (LinearFeatures.init field_dim 1 (linear_values v))
     (mkFMOp true)
     (match matrix with
      | None => Plain (Embedding.init field_dim embed_dim (embedding_values v))
      | Some matrix =>
          let features := Sparse.identity (fst (shape matrix)) in
          let features := sparse_scipy_matrix_to_tensor features in
          let indices := fst (from_scipy_sparse_matrix matrix) in
          Graph (GraphModel.init field_dim embed_dim features indices attention
                   (graph_values v))
      end).

(** [self.embedding.get_embedding_weight()] and
    [self.embedding.weight]; [None] stands for a missing attribute. *)
Definition getattr_get_embedding_weight (s : source) : option (result Tensor2) :=
  match s with
  | Plain _ => None
  | Graph g => Some (GraphModel.get_embedding_weight g)
  | Foreign o => foreign_get_embedding_weight o
  end.

Definition getattr_weight (s : source) : option Tensor2 :=
  match s with
  | Plain e => Some (Embedding.weight e)
  | Graph _ => None
  | Foreign o => foreign_weight o
  end.


Definition get_embedding_weight (self : t) : result Tensor2 :=
  match getattr_get_embedding_weight (embedding self) with
  | Some call => call
  | None =>
      match getattr_weight (embedding self) with
      | Some weight => Ok weight
      | None => Raise UnsupportedOperation
      end
  end.

(** [self.embedding(interactions)]. *)
Definition embed `{MP : MessagePassing} (s : source) (gen : Generator)
  (x : LongTensor2) : result Tensor3 :=
  match s with
  | Plain e => Embedding.forward e x
  | Graph g => GraphModel.forward g gen x
  | Foreign o => foreign_forward o gen x
  end.

Definition forward `{MP : MessagePassing} (self : t) (gen : Generator)
  (interactions : LongTensor2) : result (list Qc) :=
  (do l <- LinearFeatures.forward (linear self) interactions;
   do e <- embed (embedding self) gen interactions;
   let out := add2 l (fm_forward (fm self) e) in
   Ok (squeeze1 out))%result.

(** [model.eval()]: training mode is switched off in the module and in
    every module below it. *)
Definition eval (self : t) : t :=
  mk false (linear self) (fm self)
     (match embedding self with
      | Graph g => Graph (GraphModel.eval g)
      | s => s
      end).

(** The model holds one of the two embedding sources of the
    constructor. *)
Definition shipped (self : t) : Prop :=
  match embedding self with
  | Foreign _ => False
  | _ => True
  end.

End FactorizationMachineModel.

(** ** The score, read row by row

    The contract of the scoring model in the words of its description:
    the score of a row of field ids is the linear term of the row, the sum
    of the weights of its ids plus the shared bias, plus the interaction
    term of the embedding vectors looked up for its ids. *)

Module Score.

Local Open Scope Qc_scope.

Definition weight_of (l : LinearFeatures.t) (i : Z) : Qc :=
  nth 0 (nth (Z.to_nat i) (data2 (Embedding.weight (LinearFeatures.fc l))) []) 0.

Definition linear_term (l : LinearFeatures.t) (ids : list Z) : Qc :=
  qsum (map (weight_of l) ids) + hd 0 (LinearFeatures.bias l).

(** The table of embedding vectors, one row per id. *)
Definition table `{MP : MessagePassing} (s : FactorizationMachineModel.source)
  (gen : Generator) : Tensor2 :=
  match s with
  | FactorizationMachineModel.Plain e => Embedding.weight e
  | FactorizationMachineModel.Graph g => GraphModel.convolve g gen
  | FactorizationMachineModel.Foreign _ => mkT2 0 0 []
  end.

Definition lookup (t : Tensor2) (i : Z) : list Qc :=
  nth (Z.to_nat i) (data2 t) [].

Definition interaction_term (d : nat) (vs : list (list Qc)) : Qc :=
  half * qsum (ix_row d vs).

Definition score `{MP : MessagePassing} (m : FactorizationMachineModel.t)
  (gen : Generator) (ids : list Z) : Qc :=
  let t := table (FactorizationMachineModel.embedding m) gen in
  linear_term (FactorizationMachineModel.linear m) ids
  + interaction_term (cols2 t) (map (lookup t) ids).

(** Every id of the batch lies in [0, n). *)
Definition ids_in (n : nat) (x : LongTensor2) : Prop :=
  Forall (Forall (fun i => (0 <= i < Z.of_nat n)%Z)) (ldata x).

(** What the constructor establishes and training keeps: one weight
    per id and one bias in the linear part, a reduced interaction term,
    one of the two embedding sources. *)
Definition well_formed (m : FactorizationMachineModel.t) : Prop :=
  Embedding.embedding_dim (LinearFeatures.fc (FactorizationMachineModel.linear m)) = 1%nat
  /\ length (LinearFeatures.bias (FactorizationMachineModel.linear m)) = 1%nat
  /\ reduce_sum (FactorizationMachineModel.fm m) = true
  /\ FactorizationMachineModel.shipped m.

End Score.

(** ** The recommender *)

Module Recommender.

Local Open Scope Qc_scope.

(** Is [a] to come before [b]: higher score first, the lower id first
    among equal scores. *)
Definition before (a b : Z * Qc) : bool :=
  match snd b ?= snd a with
  | Lt => true
  | Eq => (fst a <=? fst b)%Z
  | Gt => false
  end.

Fixpoint insert (a : Z * Qc) (l : list (Z * Qc)) : list (Z * Qc) :=
  match l with
  | [] => [a]
  | b :: l' => if before a b then a :: l else b :: insert a l'
  end.

Definition sort (l : list (Z * Qc)) : list (Z * Qc) :=
  fold_right insert [] l.

(** The ids of the items: the interval of the second entity type. *)
Definition item_ids (idrange : list nat) : list Z :=
  map Z.of_nat (seq (nth 0 idrange 0%nat) (nth 1 idrange 0%nat)).

(** Modelled from the spec: [nnrecommend.operation.Recommender], which
    is not part of the sources at hand.  One input row per item id of
    the catalogue other than the liked one, each paired with the liked
    id; the model scores the whole batch in evaluation mode; the
    candidates are sorted by descending score and the first [top_k] are
    returned. *)
Definition recommend `{MP : MessagePassing} (idrange : list nat)
  (model : FactorizationMachineModel.t) (gen : Generator)
  (liked_id : Z) (top_k : nat) : result (list (Z * Qc)) :=
  let candidates := filter (fun i => negb (i =? liked_id)%Z) (item_ids idrange) in
  let rows := map (fun i => [liked_id; i]) candidates in
  (do scores <- FactorizationMachineModel.forward
                  (FactorizationMachineModel.eval model) gen
                  (mkL2 (length rows) 2 rows);
   Ok (firstn top_k (sort (combine candidates scores))))%result.

End Recommender.

(** ** The [recommend] command *)

Module CLI.

Section Command.

Context {Model Items Item Found : Type}.

(** What the command imports from the rest of the package. *)
Class Operation : Type := {
  (** [load_model(path)]: the model, the id range, the item table *)
  load_model : string -> result (option Model * list nat * Items);
  (** [model.eval().to(device)] *)
  eval_to_device : Model -> Model;
  (** [items.dropna(axis=1, how='all')] *)
  dropna : Items -> Items;
  (** [Finder(items, fields)(item_name)] *)
  Finder : Items -> list string -> string -> result Found;
  (** [r.id] *)
  id : Found -> Z;
  (** [Recommender(idrange, items, model, device)(id, topk)] *)
  Recommender : list nat -> Items -> Model -> Z -> Z -> result (list (Item * Qc))
}.

Context `{Op : Operation}.

Inductive log_record : Type :=
| Info (msg : string)
| Error (msg : string)
| InfoLoaded (model : Model)
| InfoFound (r : Found)
| InfoRating (rating : Qc) (item : Item).

(** What the command hands back when it returns. *)
Inductive retval : Type :=
| RetNone
| RetFalse.

(** The loop over the liked items. *)
Fixpoint queries (finder : string -> result Found)
  (recommender : Z -> Z -> result (list (Item * Qc)))
  (topk : Z) (item_names : list string) (log : list log_record)
  : result retval * list log_record :=
  match item_names with
  | [] => (Ok RetNone, log)
  | item_name :: rest =>
      match finder item_name with
      | Raise e => (Raise e, log)
      | Ok r =>
          let log := log ++ [InfoFound r; Info "looking for recommendations..."] in
          match recommender (id r) topk with
          | Raise e => (Raise e, log)
          | Ok recs =>
              queries finder recommender topk rest
                (log ++ map (fun ir => InfoRating (snd ir) (fst ir)) recs)
          end
      end
  end.

Definition recommend (path : string) (item_names fields : list string)
  (topk : Z) : result retval * list log_record :=
  let log := [Info "reading model file..."] in
  match load_model path with
  | Raise _ => (Ok RetFalse, log ++ [Error "failed to load model file"])
  | Ok (model, idrange, items) =>
      match model with
      | None => (Ok RetNone, log ++ [Error "could not load model"])
      | Some model =>
          let log := log ++ [InfoLoaded model] in
          let model := eval_to_device model in
          let items := dropna items in
          let finder := Finder items fields in
          let recommender := Recommender idrange items model in
          queries finder recommender topk item_names log
      end
  end.

End Command.

End CLI.

(** ** Sample inputs *)

Module Samples.

Definition q (n d : Z) : Qc := Q2Qc (Qmake n (Z.to_pos d)).

(** Two examples, three fields, two coordinates. *)
Definition batch : Tensor3 :=
  mkT3 2 3 2
    [ [ [q 1 1; q 2 1]; [q 3 1; q (-1) 2]; [q 0 1; q 5 3] ];
      [ [q 1 3; q 1 4]; [q (-2) 1; q 7 1]; [q 4 1; q 4 1] ] ].

(** One example with a single field. *)
Definition single_field : Tensor3 :=
  mkT3 1 1 3 [ [ [q 1 2; q (-3) 1; q 8 5] ] ].

(** A stand-in for the two convolutions, enough to run the model: the
    node features times the layer's weight, the edges ignored; the
    attention variant passes the product through its dropout. *)
Definition matmul (a b : Tensor2) : Tensor2 :=
  mkT2 (rows2 a) (cols2 b)
    (map (fun r =>
            map (fun j => qsum (map2 Qcmult r (map (fun br => nth j br (Q2Qc 0)) (data2 b))))
                (seq 0 (cols2 b)))
         (data2 a)).

Definition plain_product : MessagePassing := {|
  gcn_conv c features _ := matmul (to_dense features) (GCNConv.weight c);
  gat_conv c drop features _ :=
    let h := matmul (to_dense features)
               (transpose (Linear.weight (GATConv.lin_l c))) in
    mkT2 (rows2 h) (cols2 h) (drop (data2 h))
|}.

Definition values : FactorizationMachineModel.initial :=
  FactorizationMachineModel.mkInitial
    (fun i _ => q (Z.of_nat i + 1) 2)
    (fun i j => q (Z.of_nat i - Z.of_nat j) 3)
    (GraphModel.mkInitial
       (fun i j => q (Z.of_nat i + 2 * Z.of_nat j + 1) 5)
       (fun _ _ => q 1 1)
       (fun _ _ => q 1 1)).

(** Three ids: one user (id 0) and two items (ids 1 and 2), the user
    having interacted with both items. *)
Definition adjacency : spmatrix :=
  mkSp (3, 3)%nat [0; 0; 1; 2]%nat [1; 2; 0; 0]%nat [q 1 1; q 1 1; q 1 1; q 1 1].

Definition plain_model : FactorizationMachineModel.t :=
  FactorizationMachineModel.init 3 2 None false values.

Definition graph_model : FactorizationMachineModel.t :=
  FactorizationMachineModel.init 3 2 (Some adjacency) false values.

Definition attention_model : FactorizationMachineModel.t :=
  FactorizationMachineModel.init 3 2 (Some adjacency) true values.

(** A matrix whose last two rows and columns hold nothing. *)
Definition corner : spmatrix := mkSp (3, 3)%nat [0]%nat [0]%nat [q 1 1].

(** A catalogue in which only ["known"] can be found. *)
Definition serving : CLI.Operation (Model := unit) (Items := unit)
                       (Item := string) (Found := Z) := {|
  CLI.load_model path :=
    if String.eqb path "model.pt" then Ok (Some tt, [1; 2]%nat, tt)
    else Raise (OtherError "no such file");
  CLI.eval_to_device model := model;
  CLI.dropna items := items;
  CLI.Finder _ _ item_name :=
    if String.eqb item_name "known" then Ok 1%Z else Raise NotFoundError;
  CLI.id r := r;
  CLI.Recommender _ _ _ _ _ := Ok [("other"%string, q 1 2)]
|}.

(** Two rows [(user, item)]. *)
Definition rows : LongTensor2 := mkL2 2 2 [[0; 1]; [0; 2]]%Z.

(** Two states of the random number generator. *)
Definition gen_low : Generator := fun _ => q 0 1.
Definition gen_high : Generator := fun _ => q 9 10.

End Samples.

(** ** Further readings of the model and of the command *)

(** [x[:, p]]: the columns of a batch of field ids reordered by [p]. *)
Definition permute_columns (p : list nat) (x : LongTensor2) : LongTensor2 :=
  mkL2 (lrows x) (length p) (map (fun r => map (fun i => nth i r 0%Z) p) (ldata x)).

(** The sum over the pairs of fields [f < g] of the products of their
    [k]-th coordinates. *)
Fixpoint coordinate_pairs (k : nat) (vs : list (list Qc)) : Qc :=
  match vs with
  | [] => Q2Qc 0
  | v :: rest =>
      (qsum (map (fun u => nth k v (Q2Qc 0) * nth k u (Q2Qc 0)) rest)
       + coordinate_pairs k rest)%Qc
  end.

(** The score of a row of two ids, a user and an item: their two weights,
    the bias, and the dot product of their embedding vectors. *)
Definition pair_score `{MP : MessagePassing} (m : FactorizationMachineModel.t)
  (gen : Generator) (user item : Z) : Qc :=
  let t := Score.table (FactorizationMachineModel.embedding m) gen in
  let l := FactorizationMachineModel.linear m in
  (Score.weight_of l user + Score.weight_of l item + hd (Q2Qc 0) (LinearFeatures.bias l)
   + BruteForce.dot (Score.lookup t user) (Score.lookup t item))%Qc.

(** The batch whose rows are the given pairs [(user, item)]. *)
Definition pairs_batch (pairs : list (Z * Z)) : LongTensor2 :=
  mkL2 (length pairs) 2 (map (fun p => [fst p; snd p]) pairs).

(** A matrix in coordinate format holds as many row indices as column
    indices as values. *)
Definition coo_valid (m : spmatrix) : Prop :=
  length (row m) = length (col m) /\ length (col m) = length (data m).

(** The records the command logs for the names it handles to the end:
    for each name the item found, the line that the search starts, and
    one line per recommendation. *)
Definition query_records {Model Item Found : Type}
  (found : string -> Found) (recs : string -> list (Item * Qc))
  (names : list string) : list (@CLI.log_record Model Item Found) :=
  flat_map (fun name =>
              [CLI.InfoFound (found name);
               CLI.Info "looking for recommendations..."]
              ++ map (fun ir => CLI.InfoRating (snd ir) (fst ir)) (recs name))
           names.

Module MoreSamples.

(** A catalogue in which ["known"] is found and has recommendations and
    ["lonely"] is found but makes the recommender fail. *)
Definition serving : CLI.Operation (Model := unit) (Items := unit)
                       (Item := string) (Found := Z) := {|
  CLI.load_model path := Ok (Some tt, [1; 2]%nat, tt);
  CLI.eval_to_device model := model;
  CLI.dropna items := items;
  CLI.Finder _ _ item_name :=
    if String.eqb item_name "known" then Ok 1%Z
    else if String.eqb item_name "lonely" then Ok 2%Z
    else Raise NotFoundError;
  CLI.id r := r;
  CLI.Recommender _ _ _ liked _ :=
    if (liked =? 1)%Z then Ok [("other"%string, Samples.q 1 2)]
    else Raise (OtherError "no candidates")
|}.

(** Two matrices with the same coordinates and other values. *)
Definition weighted : spmatrix :=
  mkSp (3, 3)%nat [0; 0; 1; 2]%nat [1; 2; 0; 0]%nat
    [Samples.q 5 1; Samples.q 1 7; Samples.q 5 1; Samples.q 1 7].

(** A matrix with a repeated coordinate. *)
Definition repeated : spmatrix :=
  mkSp (2, 4)%nat [1; 0; 1]%nat [2; 0; 2]%nat
    [Samples.q 1 2; Samples.q 3 1; Samples.q 1 3].

End MoreSamples.


(** ** The interaction term in single precision

    The tensors of the model hold IEEE 754 single-precision numbers.
    The operations of [FactorizationMachineOperation.forward] are written
    here once more over them, on the data of one batch, with the sums
    accumulated field by field. *)

Module Float32.

Definition prec : Z := 24.
Definition emax : Z := 128.

Definition float : Type := spec_float.

Definition zero : float := S754_zero false.
Definition add : float -> float -> float := SFadd prec emax.
Definition sub : float -> float -> float := SFsub prec emax.
Definition mul : float -> float -> float := SFmul prec emax.

(** The single-precision number nearest to [m * 2^e]. *)
Definition of_Z (m e : Z) : float := binary_normalize prec emax m e false.

(** The constant [0.5]. *)
Definition half : float := of_Z 1 (-1).

(** The rational a finite number stands for. *)
Definition to_Q (x : float) : option Q :=
  match x with
  | S754_zero _ => Some 0%Q
  | S754_finite s m e =>
      Some ((if s then -1 else 1) * inject_Z (Zpos m) * (2 ^ e))%Q
  | _ => None
  end.

Definition is_nan (x : float) : bool :=
  match x with
  | S754_nan => true
  | _ => false
  end.

(** [a] is within the relative tolerance [rtol] of [b]. *)
Definition close (rtol : Q) (a b : float) : Prop :=
  match to_Q a, to_Q b with
  | Some p, Some q => (Qabs (p - q) <= rtol * Qabs q)%Q
  | _, _ => False
  end.

Definition sum (l : list float) : float := fold_left add l zero.

(** [torch.sum(x, dim=1)] on the data of a [(batch, fields, d)] tensor. *)
Definition sum3_dim1 (d : nat) (x : list (list (list float))) : list (list float) :=
  map (fun ex => map (fun k => sum (map (fun v => nth k v zero) ex)) (seq 0 d)) x.

Definition sq (a : float) : float := mul a a.

Definition fm_forward (reduce : bool) (d : nat) (x : list (list (list float)))
  : list (list float) :=
  let square_of_sum := map (map sq) (sum3_dim1 d x) in
  let sum_of_square := sum3_dim1 d (map (map (map sq)) x) in
  let ix := map2 (map2 sub) square_of_sum sum_of_square in
  let ix := if reduce then map (fun r => [sum r]) ix else ix in
  map (map (mul half)) ix.

(** The brute-force sum over the pairs of fields, in single precision. *)
Fixpoint dot (u v : list float) : float :=
  match u, v with
  | a :: u', b :: v' => add (mul a b) (dot u' v')
  | _, _ => zero
  end.

Fixpoint pairwise_sum (vs : list (list float)) : float :=
  match vs with
  | [] => zero
  | v :: rest => add (sum (map (dot v) rest)) (pairwise_sum rest)
  end.

(** Two fields of one coordinate: [1e8] and [1.0]. *)
Definition large_and_one : list (list (list float)) :=
  [ [ [of_Z 100000000 0]; [of_Z 1 0] ] ].

(** One field of one coordinate: [2^64], whose square is beyond the
    largest single-precision number. *)
Definition overflowing : list (list (list float)) :=
  [ [ [of_Z 1 64] ] ].

(** Three fields of one coordinate, [2^24], [1.0], [1.0], and the same
    fields with the first moved to the end. *)
Definition three_fields : list (list (list float)) :=
  [ [ [of_Z 1 24]; [of_Z 1 0]; [of_Z 1 0] ] ].

Definition three_fields_reordered : list (list (list float)) :=
  [ [ [of_Z 1 0]; [of_Z 1 0]; [of_Z 1 24] ] ].

End Float32.

Module EdgeSamples.


(** A batch of ids that counts one of them from the end. *)
Definition rows_from_end : LongTensor2 := mkL2 2 2 [[0; -1]; [-3; 2]]%Z.

End EdgeSamples.

(** * Properties *)

(** ** Sums of rationals *)

Section Sums.

Local Open Scope Qc_scope.

Lemma half_double (a : Qc) : half * (a + a) = a.
Proof.
  assert (E : half * (1 + 1) = 1) by (apply Qc_is_canon; reflexivity).
  transitivity (a * (half * (1 + 1))); [ring | rewrite E; ring].
Qed.

Lemma qsum_app (l m : list Qc) : qsum (l ++ m) = qsum l + qsum m.
Proof.
  induction l as [|a l IH]; simpl.
  - ring.
  - unfold qsum in *. simpl. rewrite IH. ring.
Qed.

Lemma qsum_map_plus {A : Type} (f g : A -> Qc) (l : list A) :
  qsum (map (fun a => f a + g a) l) = qsum (map f l) + qsum (map g l).
Proof.
  induction l as [|a l IH]; unfold qsum in *; simpl.
  - ring.
  - rewrite IH. ring.
Qed.

Lemma qsum_map_scale {A : Type} (c : Qc) (f : A -> Qc) (l : list A) :
  qsum (map (fun a => c * f a) l) = c * qsum (map f l).
Proof.
  induction l as [|a l IH]; unfold qsum in *; simpl.
  - ring.
  - rewrite IH. ring.
Qed.

Lemma qsum_map_zero {A : Type} (l : list A) :
  qsum (map (fun _ => 0) l) = 0.
Proof.
  induction l as [|a l IH]; unfold qsum in *; simpl.
  - reflexivity.
  - rewrite IH. ring.
Qed.

Lemma qsum_map_ext_in {A : Type} (f g : A -> Qc) (l : list A) :
  (forall a, In a l -> f a = g a) -> qsum (map f l) = qsum (map g l).
Proof.
  intros E. f_equal. apply map_ext_in. exact E.
Qed.

Lemma qsum_Permutation (l m : list Qc) :
  Permutation l m -> qsum l = qsum m.
Proof.
  induction 1 as [|a l m _ IH|a b l|l m n _ IH1 _ IH2]; unfold qsum in *; simpl.
  - reflexivity.
  - now rewrite IH.
  - ring.
  - now rewrite IH1.
Qed.

(** A sum over [0 .. d] splits off its first term. *)
Lemma qsum_seq_S (f : nat -> Qc) (d : nat) :
  qsum (map f (seq 0 (S d))) = f 0%nat + qsum (map (fun k => f (S k)) (seq 0 d)).
Proof.
  simpl. rewrite <- seq_shift, map_map. reflexivity.
Qed.

End Sums.

(** ** The interaction term *)

Section Interaction.

Local Open Scope Qc_scope.
Import BruteForce.

Lemma map2_map_map {A B C D : Type} (h : B -> C -> D) (f : A -> B) (g : A -> C)
  (l : list A) :
  map2 h (map f l) (map g l) = map (fun a => h (f a) (g a)) l.
Proof.
  induction l as [|a l IH]; simpl; [reflexivity | now rewrite IH].
Qed.

Lemma nth_map_sq (k : nat) (v : list Qc) : nth k (map sq v) 0 = sq (nth k v 0).
Proof.
  change 0 with (sq 0) at 1. apply map_nth.
Qed.

(** What [fm_forward] computes, example by example. *)
Lemma fm_forward_data (self : FactorizationMachineOperation) (x : Tensor3) :
  data2 (fm_forward self x) =
  map (fun ex => map (Qcmult half)
                   (if reduce_sum self
                    then [qsum (ix_row (dim2 x) ex)]
                    else ix_row (dim2 x) ex))
      (data3 x).
Proof.
  unfold fm_forward, sub2, pow2_2, pow2_3, sum3_dim1. simpl.
  rewrite !map_map, map2_map_map.
  assert (E : forall ex,
             map2 Qcminus
               (map sq (map (fun k => qsum (map (fun v => nth k v 0) ex))
                          (seq 0 (dim2 x))))
               (map (fun k => qsum (map (fun v => nth k v 0) (map (map sq) ex)))
                  (seq 0 (dim2 x)))
             = ix_row (dim2 x) ex).
  { intros ex. unfold ix_row. rewrite map_map, map2_map_map.
    apply map_ext. intros k. rewrite map_map. f_equal.
    apply qsum_map_ext_in. intros v _. apply nth_map_sq. }
  destruct (reduce_sum self); simpl; rewrite ?map_map; simpl;
    apply map_ext; intros ex; now rewrite E.
Qed.

Lemma fm_forward_size (self : FactorizationMachineOperation) (x : Tensor3) :
  size2 (fm_forward self x) =
  (dim0 x, if reduce_sum self then 1%nat else dim2 x).
Proof.
  unfold fm_forward, size2. destruct (reduce_sum self); reflexivity.
Qed.

Lemma dot_nth (d : nat) : forall u v : list Qc,
  length u = d -> length v = d ->
  dot u v = qsum (map (fun k => nth k u 0 * nth k v 0) (seq 0 d)).
Proof.
  induction d as [|d IH]; intros [|a u] [|b v] Hu Hv; try discriminate.
  - reflexivity.
  - rewrite qsum_seq_S. simpl. f_equal. apply IH; simpl in *; lia.
Qed.

(** Exchanging the two sums of the cross term. *)
Lemma cross_term (d : nat) (v : list Qc) (rest : list (list Qc)) :
  length v = d ->
  Forall (fun u => length u = d) rest ->
  qsum (map (fun k => nth k v 0 * qsum (map (fun u => nth k u 0) rest)) (seq 0 d))
  = qsum (map (dot v) rest).
Proof.
  intros Hv Hrest. induction Hrest as [|u rest Hu _ IH].
  - simpl. rewrite (qsum_map_ext_in _ (fun _ => 0)).
    + apply qsum_map_zero.
    + intros k _. unfold qsum. simpl. ring.
  - simpl map at 3. unfold qsum at 3. simpl fold_right. fold (qsum (map (dot v) rest)).
    rewrite <- IH, (dot_nth d v u Hv Hu), <- qsum_map_plus.
    apply qsum_map_ext_in. intros k _. unfold qsum. simpl. ring.
Qed.

(** The polynomial identity, for one example: the reduced row is twice
    the sum over the pairs. *)
Lemma ix_row_pairwise (d : nat) (ex : list (list Qc)) :
  Forall (fun v => length v = d) ex ->
  qsum (ix_row d ex) = pairwise_sum ex + pairwise_sum ex.
Proof.
  induction 1 as [|v rest Hv Hrest IH].
  - unfold ix_row. rewrite (qsum_map_ext_in _ (fun _ => 0)).
    + rewrite qsum_map_zero. simpl. ring.
    + intros k _. unfold qsum, sq. simpl. ring.
  - simpl pairwise_sum. rewrite <- (cross_term d v rest Hv Hrest).
    transitivity
      (qsum (ix_row d rest)
       + (qsum (map (fun k => nth k v 0 * qsum (map (fun u => nth k u 0) rest)) (seq 0 d))
          + qsum (map (fun k => nth k v 0 * qsum (map (fun u => nth k u 0) rest)) (seq 0 d)))).
    + unfold ix_row. rewrite <- !qsum_map_plus.
      apply qsum_map_ext_in. intros k _. unfold qsum, sq. simpl. ring.
    + rewrite IH. ring.
Qed.

End Interaction.

Section InteractionClaims.

Local Open Scope Qc_scope.
Import BruteForce.

Lemma tensor2_eq (a b : Tensor2) :
  rows2 a = rows2 b -> cols2 a = cols2 b -> data2 a = data2 b -> a = b.
Proof.
  destruct a, b; simpl; intros; subst; reflexivity.
Qed.

Lemma ix_row_Permutation (d : nat) (ex ex' : list (list Qc)) :
  Permutation ex ex' -> ix_row d ex = ix_row d ex'.
Proof.
  intros P. unfold ix_row. apply map_ext. intros k.
  rewrite (qsum_Permutation _ _ (Permutation_map (fun v => nth k v 0) P)).
  rewrite (qsum_Permutation _ _ (Permutation_map (fun v => sq (nth k v 0)) P)).
  reflexivity.
Qed.

Lemma map_nth_seq {A : Type} (d : A) (l : list A) :
  map (fun i => nth i l d) (seq 0 (length l)) = l.
Proof.
  induction l as [|a l IH]; simpl.
  - reflexivity.
  - rewrite <- seq_shift, map_map. simpl. now rewrite IH.
Qed.

(** Picking the fields in the order of a permutation of their positions
    permutes them. *)
Lemma reorder_Permutation {A : Type} (d : A) (p : list nat) (l : list A) :
  Permutation p (seq 0 (length l)) ->
  Permutation (map (fun i => nth i l d) p) l.
Proof.
  intros P. apply (Permutation_map (fun i => nth i l d)) in P.
  now rewrite map_nth_seq in P.
Qed.

Lemma ix_row_single (d : nat) (v : list Qc) :
  Forall (fun a => a = 0) (ix_row d [v]).
Proof.
  unfold ix_row. apply Forall_forall. intros a Ha.
  apply in_map_iff in Ha. destruct Ha as [k [<- _]].
  unfold qsum, sq. simpl. ring.
Qed.

End InteractionClaims.

(** C1, as stated, fails over floats: in single precision the fields
    [1e8] and [1.0] make the polynomial identity cancel to zero, while
    the sum over the pairs is [1e8]; the two are within no relative
    tolerance below one of each other. *)
Lemma fm_forward_float32_cancellation :
  Float32.fm_forward true 1 Float32.large_and_one = [[Float32.zero]]
  /\ map (fun ex => [Float32.pairwise_sum ex]) Float32.large_and_one
     = [[Float32.of_Z 100000000 0]]
  /\ forall rtol : Q,
       (rtol < 1)%Q ->
       ~ Float32.close rtol Float32.zero (Float32.of_Z 100000000 0).
Proof.
  split; [vm_compute; reflexivity|]. split; [vm_compute; reflexivity|].
  intros rtol Hlt Hc. unfold Float32.close in Hc.
  set (a := Float32.to_Q Float32.zero) in Hc.
  set (b := Float32.to_Q (Float32.of_Z 100000000 0)) in Hc.
  vm_compute in a, b. subst a b. cbv beta iota in Hc.
  change (Qabs (0 - (100000000 # 1))) with (100000000 # 1)%Q in Hc.
  change (Qabs (100000000 # 1)) with (100000000 # 1)%Q in Hc.
  lra.
Qed.

(** C1, amended.  Over exact rationals: for a batch of per-field embedding
    vectors, each of length [embed_dim], the interaction term that
    [FactorizationMachineOperation.forward] computes by the polynomial
    identity, half the sum over the coordinates of the square of the sum
    minus the sum of the squares, is for every example the brute-force sum
    over all pairs of fields [f < g] of the dot product of their vectors;
    the result has one row per example and one column. *)
Theorem fm_forward_is_pairwise_sum (x : Tensor3) :
  wf3 x ->
  fm_forward (mkFMOp true) x =
  mkT2 (dim0 x) 1 (map (fun ex => [BruteForce.pairwise_sum ex]) (data3 x)).
Proof.
  intros [_ Hx]. apply tensor2_eq; try reflexivity.
  rewrite fm_forward_data. simpl.
  apply map_ext_in. intros ex Hex.
  rewrite Forall_forall in Hx. destruct (Hx ex Hex) as [_ Hlen].
  rewrite (ix_row_pairwise _ _ Hlen). now rewrite half_double.
Qed.

Lemma fm_forward_is_pairwise_sum_witness :
  wf3 Samples.batch /\
  fm_forward (mkFMOp true) Samples.batch =
  mkT2 2 1 (map (fun ex => [BruteForce.pairwise_sum ex]) (data3 Samples.batch)).
Proof.
  assert (W : wf3 Samples.batch)
    by (split; [reflexivity | repeat constructor]).
  split; [exact W | exact (fm_forward_is_pairwise_sum _ W)].
Defined.

(** C10, as stated, fails over floats: in single precision a single
    field [2^64], a finite number, has a square beyond the largest
    number, and the term is not zero but not-a-number, with and without
    [reduce_sum]. *)
Lemma fm_forward_float32_single_field_nan :
  Float32.to_Q (Float32.of_Z 1 64) = Some (18446744073709551616 # 1)%Q
  /\ Float32.fm_forward true 1 Float32.overflowing = [[S754_nan]]
  /\ Float32.fm_forward false 1 Float32.overflowing = [[S754_nan]]
  /\ Float32.fm_forward true 1 Float32.overflowing <> [[Float32.zero]].
Proof.
  repeat split; try (vm_compute; reflexivity).
  vm_compute. discriminate.
Qed.

(** With the sums accumulated field by field in single precision, the
    order of the fields shows in the result: [2^24], [1.0], [1.0] give
    zero, and the same fields with the first one last give [2^25]. *)
Example fm_forward_float32_reordering :
  Float32.fm_forward true 1 Float32.three_fields = [[Float32.zero]]
  /\ Float32.fm_forward true 1 Float32.three_fields_reordered = [[Float32.of_Z 1 25]].
Proof.
  split; vm_compute; reflexivity.
Qed.

(** C10, amended.  Over exact rationals, the interaction term does not depend on
    the order of the fields: reordering the field axis of a batch by a permutation [p] of
    the field positions leaves the result of
    [FactorizationMachineOperation.forward] unchanged, with or without
    [reduce_sum]; and when there is a single field every entry of the
    result is zero. *)
Theorem fm_forward_permutation_invariant
  (self : FactorizationMachineOperation) (x : Tensor3) :
  wf3 x ->
  (forall p : list nat,
      Permutation p (seq 0 (dim1 x)) ->
      fm_forward self (permute_fields p x) = fm_forward self x) /\
  (dim1 x = 1%nat ->
   Forall (Forall (fun a => a = Q2Qc 0)) (data2 (fm_forward self x))).
Proof.
  intros [_ Hx]. rewrite Forall_forall in Hx. split.
  - intros p P.
    apply tensor2_eq;
      [destruct self as [[|]]; reflexivity | destruct self as [[|]]; reflexivity |].
    rewrite !fm_forward_data. simpl. rewrite map_map.
    apply map_ext_in. intros ex Hex. destruct (Hx ex Hex) as [Hn _].
    rewrite <- Hn in P.
    now rewrite (ix_row_Permutation (dim2 x) _ _ (reorder_Permutation [] p ex P)).
  - intros H1. rewrite fm_forward_data. apply Forall_forall.
    intros r Hr. apply in_map_iff in Hr. destruct Hr as [ex [<- Hex]].
    destruct (Hx ex Hex) as [Hn _]. rewrite H1 in Hn.
    destruct ex as [|v [|? ?]]; try discriminate.
    pose proof (ix_row_single (dim2 x) v) as Z0.
    assert (Zs : qsum (ix_row (dim2 x) [v]) = Q2Qc 0).
    { induction Z0 as [|a l Ha _ IH]; [reflexivity|].
      unfold qsum in *. simpl. rewrite IH, Ha. apply Qcplus_0_l. }
    apply Forall_forall. intros a Ha. apply in_map_iff in Ha.
    destruct Ha as [b [<- Hb]].
    assert (b = Q2Qc 0) as ->.
    { destruct (reduce_sum self).
      - destruct Hb as [<-|[]]. exact Zs.
      - rewrite Forall_forall in Z0. now apply Z0. }
    apply Qcmult_0_r.
Qed.

Lemma fm_forward_permutation_invariant_witness :
  fm_forward (mkFMOp true) (permute_fields [2; 0; 1]%nat Samples.batch)
  = fm_forward (mkFMOp true) Samples.batch /\
  Forall (Forall (fun a => a = Q2Qc 0))
         (data2 (fm_forward (mkFMOp false) Samples.single_field)).
Proof.
  split.
  - apply (fm_forward_permutation_invariant (mkFMOp true) Samples.batch).
    + split; [reflexivity | repeat constructor].
    + change (Permutation [2; 0; 1]%nat [0; 1; 2]%nat).
      apply (perm_trans (l' := [0; 2; 1]%nat)).
      * apply perm_swap.
      * apply perm_skip, perm_swap.
  - apply (fm_forward_permutation_invariant (mkFMOp false) Samples.single_field).
    + split; [reflexivity | repeat constructor].
    + reflexivity.
Defined.

(** ** The forward pass *)

Section Forward.

Local Open Scope Qc_scope.
Context `{MP : MessagePassing}.

Lemma mapM_ok {A B : Type} (f : A -> result B) (g : A -> B) (l : list A) :
  (forall a, In a l -> f a = Ok (g a)) -> mapM f l = Ok (map g l).
Proof.
  induction l as [|a l IH]; intros E; simpl.
  - reflexivity.
  - rewrite (E a (or_introl eq_refl)), IH; [reflexivity|].
    intros b Hb. apply E. now right.
Qed.

Lemma mapM_rows_ok {A B : Type} (f : A -> result B) (g : A -> B)
  (P : A -> Prop) (rows : list (list A)) :
  (forall a, P a -> f a = Ok (g a)) ->
  Forall (Forall P) rows ->
  mapM (mapM f) rows = Ok (map (map g) rows).
Proof.
  intros E HP. apply mapM_ok. intros r Hr. apply mapM_ok. intros a Ha.
  apply E. rewrite Forall_forall in HP. specialize (HP r Hr).
  rewrite Forall_forall in HP. now apply HP.
Qed.

Lemma embedding_row_ok (e : Embedding.t) (i : Z) :
  (0 <= i < Z.of_nat (Embedding.num_embeddings e))%Z ->
  Embedding.row e i = Ok (Score.lookup (Embedding.weight e) i).
Proof.
  intros Hi. unfold Embedding.row.
  destruct (Z.leb_spec 0 i); [|lia].
  destruct (Z.ltb_spec i (Z.of_nat (Embedding.num_embeddings e))); [|lia].
  reflexivity.
Qed.

Lemma index_row_ok (t : Tensor2) (i : Z) :
  (0 <= i < Z.of_nat (rows2 t))%Z ->
  index_row t i = Ok (Score.lookup t i).
Proof.
  intros Hi. unfold index_row.
  destruct (Z.leb_spec (- Z.of_nat (rows2 t)) i); [|lia].
  destruct (Z.ltb_spec i (Z.of_nat (rows2 t))); [|lia].
  destruct (Z.ltb_spec i 0); [lia|]. reflexivity.
Qed.

Lemma embedding_forward_ok (e : Embedding.t) (x : LongTensor2) :
  Score.ids_in (Embedding.num_embeddings e) x ->
  Embedding.forward e x =
  Ok (mkT3 (lrows x) (lcols x) (Embedding.embedding_dim e)
        (map (map (Score.lookup (Embedding.weight e))) (ldata x))).
Proof.
  intros Hx. unfold Embedding.forward.
  rewrite (mapM_rows_ok _ _ _ _ (embedding_row_ok e) Hx). reflexivity.
Qed.

Lemma index_rows_ok (t : Tensor2) (x : LongTensor2) :
  Score.ids_in (rows2 t) x ->
  index_rows t x =
  Ok (mkT3 (lrows x) (lcols x) (cols2 t) (map (map (Score.lookup t)) (ldata x))).
Proof.
  intros Hx. unfold index_rows.
  rewrite (mapM_rows_ok _ _ _ _ (index_row_ok t) Hx). reflexivity.
Qed.

(** The embedding source looks every id up in its table. *)
Lemma embed_ok (m : FactorizationMachineModel.t) (gen : Generator)
  (x : LongTensor2) :
  FactorizationMachineModel.shipped m ->
  Score.ids_in (rows2 (Score.table (FactorizationMachineModel.embedding m) gen)) x ->
  FactorizationMachineModel.embed (FactorizationMachineModel.embedding m) gen x =
  let t := Score.table (FactorizationMachineModel.embedding m) gen in
  Ok (mkT3 (lrows x) (lcols x) (cols2 t) (map (map (Score.lookup t)) (ldata x))).
Proof.
  unfold FactorizationMachineModel.shipped.
  destruct (FactorizationMachineModel.embedding m) as [e|g|o]; simpl; intros S Hx.
  - now apply embedding_forward_ok.
  - now apply index_rows_ok.
  - destruct S.
Qed.

(** The linear part: one number per row, in a column. *)
Lemma linear_forward_ok (l : LinearFeatures.t) (x : LongTensor2) :
  Embedding.embedding_dim (LinearFeatures.fc l) = 1%nat ->
  length (LinearFeatures.bias l) = 1%nat ->
  Score.ids_in (Embedding.num_embeddings (LinearFeatures.fc l)) x ->
  LinearFeatures.forward l x =
  Ok (mkT2 (lrows x) 1 (map (fun ids => [Score.linear_term l ids]) (ldata x))).
Proof.
  intros Hd Hb Hx. unfold LinearFeatures.forward.
  rewrite (embedding_forward_ok _ _ Hx). simpl.
  unfold add_bias, sum3_dim1. simpl. rewrite Hd. simpl. f_equal. f_equal.
  rewrite !map_map. apply map_ext. intros ids. unfold Score.linear_term.
  destruct (LinearFeatures.bias l) as [|b [|? ?]]; try discriminate.
  simpl. rewrite map_map. reflexivity.
Qed.

End Forward.

(** The models of the constructor are well formed, and both of their
    tables have one row per id. *)
Lemma init_well_formed (field_dim embed_dim : nat) (matrix : option spmatrix)
  (attention : bool) (v : FactorizationMachineModel.initial) :
  let m := FactorizationMachineModel.init field_dim embed_dim matrix attention v in
  Score.well_formed m
  /\ Embedding.num_embeddings
       (LinearFeatures.fc (FactorizationMachineModel.linear m)) = field_dim.
Proof.
  cbv zeta. split; [|reflexivity].
  repeat split. destruct matrix; exact I.
Qed.

(** An id outside the tables is refused. *)
Example forward_out_of_range :
  FactorizationMachineModel.forward (MP := Samples.plain_product)
    Samples.plain_model Samples.gen_low (mkL2 1 2 [[0; 3]]%Z)
  = Raise IndexError.
Proof. reflexivity. Qed.

(** C2.  For a batch of rows of field ids,
    [FactorizationMachineModel.forward] returns one number per row: the
    linear term of the row, the sum of the weights of its ids plus the
    shared bias, plus the interaction term of the embedding vectors looked
    up for its ids; nothing further is applied to the sum. *)
Theorem forward_scores_rows `{MP : MessagePassing}
  (m : FactorizationMachineModel.t) (gen : Generator) (x : LongTensor2) :
  Score.well_formed m ->
  wfL2 x ->
  Score.ids_in
    (Embedding.num_embeddings (LinearFeatures.fc (FactorizationMachineModel.linear m))) x ->
  Score.ids_in (rows2 (Score.table (FactorizationMachineModel.embedding m) gen)) x ->
  FactorizationMachineModel.forward m gen x = Ok (map (Score.score m gen) (ldata x))
  /\ length (map (Score.score m gen) (ldata x)) = lrows x.
Proof.
  intros (Hd & Hb & Hr & Hs) [Hrows _] Hlin Hemb. split.
  - unfold FactorizationMachineModel.forward.
    rewrite (linear_forward_ok _ _ Hd Hb Hlin). cbn [bind].
    rewrite (embed_ok _ _ _ Hs Hemb). cbv zeta. cbn [bind].
    unfold squeeze1, add2. cbn [data2]. rewrite fm_forward_data, Hr.
    cbn [data3 dim2]. rewrite (map_map (map _)), map2_map_map, map_map.
    reflexivity.
  - now rewrite length_map.
Qed.

Lemma forward_scores_rows_witness :
  FactorizationMachineModel.forward (MP := Samples.plain_product)
    Samples.plain_model Samples.gen_low Samples.rows
  = Ok (map (Score.score (MP := Samples.plain_product) Samples.plain_model Samples.gen_low)
          (ldata Samples.rows))
  /\ length (map (Score.score (MP := Samples.plain_product) Samples.plain_model Samples.gen_low)
               (ldata Samples.rows)) = 2%nat.
Proof.
  apply (forward_scores_rows (MP := Samples.plain_product)
           Samples.plain_model Samples.gen_low Samples.rows).
  - repeat split; reflexivity.
  - split; [reflexivity | repeat constructor].
  - repeat constructor; simpl; lia.
  - repeat constructor; simpl; lia.
Defined.

(** ** The embedding weight *)

Section EmbeddingWeight.

Lemma tabulate2_wf (n d : nat) (f : nat -> nat -> Qc) : wf2 (tabulate2 n d f).
Proof.
  split; simpl.
  - now rewrite length_map, length_seq.
  - apply Forall_forall. intros r Hr. apply in_map_iff in Hr.
    destruct Hr as [i [<- _]]. now rewrite length_map, length_seq.
Qed.

Lemma transpose_wf (t : Tensor2) : wf2 t -> wf2 (transpose t).
Proof.
  intros [Hrows _]. split; simpl.
  - now rewrite length_map, length_seq.
  - apply Forall_forall. intros r Hr. apply in_map_iff in Hr.
    destruct Hr as [j [<- _]]. now rewrite length_map.
Qed.

(** The embedding weight of a model as the constructor builds it. *)
Lemma get_embedding_weight_init (field_dim embed_dim : nat)
  (matrix : option spmatrix) (attention : bool)
  (v : FactorizationMachineModel.initial) :
  FactorizationMachineModel.get_embedding_weight
    (FactorizationMachineModel.init field_dim embed_dim matrix attention v)
  = Ok (match matrix with
        | None =>
            tabulate2 field_dim embed_dim
              (FactorizationMachineModel.embedding_values v)
        | Some _ =>
            if attention
            then transpose
                   (tabulate2 (8 * embed_dim) field_dim
                      (GraphModel.weight_values
                         (FactorizationMachineModel.graph_values v)))
            else tabulate2 field_dim embed_dim
                   (GraphModel.weight_values
                      (FactorizationMachineModel.graph_values v))
        end).
Proof.
  destruct matrix as [matrix|]; [destruct attention|]; reflexivity.
Qed.

End EmbeddingWeight.

(** C3, as stated, fails: with attention the eight heads are
    concatenated, and the embedding weight of a model built for three ids
    and two coordinates has size [(3, 16)], not [(3, 2)]. *)
Lemma get_embedding_weight_attention_size :
  exists w,
    FactorizationMachineModel.get_embedding_weight Samples.attention_model = Ok w
    /\ size2 w = (3, 16)%nat
    /\ size2 w <> (3, 2)%nat.
Proof.
  unfold Samples.attention_model. rewrite get_embedding_weight_init.
  eexists. split; [reflexivity|]. split; [reflexivity | discriminate].
Qed.

(** C3, amended.  For a model constructed with [field_dim] and
    [embed_dim], [get_embedding_weight] returns a well-formed matrix of
    size [(field_dim, embed_dim)] with the plain table and with the graph
    convolution without attention; with attention it returns one of size
    [(field_dim, 8 * embed_dim)]. *)
Theorem get_embedding_weight_size (field_dim embed_dim : nat)
  (matrix : option spmatrix) (attention : bool)
  (v : FactorizationMachineModel.initial) :
  exists w,
    FactorizationMachineModel.get_embedding_weight
      (FactorizationMachineModel.init field_dim embed_dim matrix attention v) = Ok w
    /\ wf2 w
    /\ size2 w =
       (field_dim,
        match matrix with
        | Some _ => if attention then (8 * embed_dim)%nat else embed_dim
        | None => embed_dim
        end).
Proof.
  rewrite get_embedding_weight_init. eexists. split; [reflexivity|].
  destruct matrix as [matrix|]; [destruct attention|]; split;
    try reflexivity; try apply transpose_wf; apply tabulate2_wf.
Qed.




(** ** The graph embedding *)

Section GraphEmbedding.

Local Open Scope Qc_scope.

Lemma entries_diagonal (s n : nat) :
  entries (seq s n, seq s n) (repeat 1 n) = map (fun k => (k, k, 1)) (seq s n).
Proof.
  unfold entries. simpl. revert s.
  induction n as [|n IH]; intros s; simpl; [reflexivity | now rewrite IH].
Qed.

Lemma get_diagonal (i j n : nat) : forall s : nat,
  get (map (fun k => (k, k, 1)) (seq s n)) i j =
  if ((s <=? i) && (i <? s + n) && (i =? j))%nat then 1 else 0.
Proof.
  unfold get, qsum.
  induction n as [|n IH]; intros s; cbn [seq map fold_right fst snd].
  - destruct (Nat.leb_spec s i), (Nat.ltb_spec i (s + 0)); simpl;
      try reflexivity; lia.
  - rewrite IH.
    repeat match goal with
           | |- context [Nat.eqb ?a ?b] => destruct (Nat.eqb_spec a b)
           | |- context [Nat.leb ?a ?b] => destruct (Nat.leb_spec a b)
           | |- context [Nat.ltb ?a ?b] => destruct (Nat.ltb_spec a b)
           end; cbn [andb]; try lia; ring.
Qed.

(** The sparse identity, made dense, is the identity matrix. *)
Lemma identity_to_dense (n : nat) :
  to_dense (sparse_scipy_matrix_to_tensor (Sparse.identity n)) = eye n.
Proof.
  unfold to_dense, eye, tabulate2. simpl. f_equal.
  apply map_ext_in. intros i Hi. apply map_ext_in. intros j _.
  apply in_seq in Hi. unfold st_get. simpl.
  rewrite entries_diagonal, get_diagonal.
  destruct (Nat.leb_spec 0 i); [|lia].
  destruct (Nat.ltb_spec i (0 + n)); [|lia]. reflexivity.
Qed.

End GraphEmbedding.

(** ** Picking rows *)

Section Picking.

Lemma mapM_Ok_inv {A B : Type} (f : A -> result B) (l : list A) (bs : list B) :
  mapM f l = Ok bs -> forall a, In a l -> exists b, f a = Ok b.
Proof.
  revert bs. induction l as [|a' l IH]; intros bs E a Ha; [destruct Ha|].
  simpl in E. destruct (f a') as [b'|e] eqn:Ea'; [|discriminate].
  destruct (mapM f l) as [bs'|e] eqn:El; [|discriminate].
  destruct Ha as [<-|Ha]; [eauto | now apply (IH bs')].
Qed.

Lemma mapM_Raise_inv {A B : Type} (f : A -> result B) (l : list A) (e : exn) :
  mapM f l = Raise e -> exists a, In a l /\ f a = Raise e.
Proof.
  induction l as [|a l IH]; intros E; [discriminate|].
  simpl in E. destruct (f a) as [b|e'] eqn:Ea.
  - destruct (mapM f l) as [bs|e'] eqn:El; [discriminate|].
    injection E as ->. destruct (IH eq_refl) as [a' [Ha' Ea']].
    exists a'. split; [now right | exact Ea'].
  - injection E as ->. exists a. split; [now left | exact Ea].
Qed.

(** An id in [-rows, rows) picks the row at its residue modulo the
    number of rows: itself when it is not negative, counted from the end
    when it is. *)
Lemma index_row_mod (t : Tensor2) (i : Z) :
  (- Z.of_nat (rows2 t) <= i < Z.of_nat (rows2 t))%Z ->
  index_row t i
  = Ok (nth (Z.to_nat (i mod Z.of_nat (rows2 t))) (data2 t) []).
Proof.
  intros Hi. unfold index_row.
  destruct (Z.leb_spec (- Z.of_nat (rows2 t)) i); [|lia].
  destruct (Z.ltb_spec i (Z.of_nat (rows2 t))); [|lia]. cbn [andb].
  destruct (Z.ltb_spec i 0).
  - replace (i mod Z.of_nat (rows2 t))%Z with (i + Z.of_nat (rows2 t))%Z;
      [reflexivity|].
    rewrite <- (Z.mod_small (i + Z.of_nat (rows2 t)) (Z.of_nat (rows2 t))) by lia.
    pose proof (Z.mod_add i 1 (Z.of_nat (rows2 t))) as E.
    rewrite Z.mul_1_l in E. apply E. lia.
  - now rewrite Z.mod_small by lia.
Qed.

Lemma index_row_out (t : Tensor2) (i : Z) :
  ~ (- Z.of_nat (rows2 t) <= i < Z.of_nat (rows2 t))%Z ->
  index_row t i = Raise IndexError.
Proof.
  intros Hi. unfold index_row.
  destruct (Z.leb_spec (- Z.of_nat (rows2 t)) i),
    (Z.ltb_spec i (Z.of_nat (rows2 t))); cbn [andb]; try reflexivity; lia.
Qed.

(** [t[x]], id by id. *)
Lemma index_rows_pick (t : Tensor2) (x : LongTensor2) :
  Forall (Forall (fun i => (- Z.of_nat (rows2 t) <= i < Z.of_nat (rows2 t))%Z))
         (ldata x) ->
  index_rows t x
  = Ok (mkT3 (lrows x) (lcols x) (cols2 t)
          (map (map (fun i => nth (Z.to_nat (i mod Z.of_nat (rows2 t))) (data2 t) []))
               (ldata x))).
Proof.
  intros Hx. unfold index_rows.
  rewrite (mapM_rows_ok _ _ _ _ (index_row_mod t) Hx). reflexivity.
Qed.

Lemma index_rows_out (t : Tensor2) (x : LongTensor2) (r : list Z) (i : Z) :
  In r (ldata x) -> In i r ->
  ~ (- Z.of_nat (rows2 t) <= i < Z.of_nat (rows2 t))%Z ->
  index_rows t x = Raise IndexError.
Proof.
  intros Hr Hi Hout. unfold index_rows.
  destruct (mapM (mapM (index_row t)) (ldata x)) as [d|err] eqn:E; cbn [bind].
  - exfalso. destruct (mapM_Ok_inv _ _ _ E r Hr) as [vs Evs].
    destruct (mapM_Ok_inv _ _ _ Evs i Hi) as [v Ev].
    rewrite (index_row_out t i Hout) in Ev. discriminate.
  - f_equal. destruct (mapM_Raise_inv _ _ _ E) as [r' [_ Er']].
    destruct (mapM_Raise_inv _ _ _ Er') as [k [_ Ek]].
    unfold index_row in Ek.
    destruct ((- Z.of_nat (rows2 t) <=? k)%Z && (k <? Z.of_nat (rows2 t))%Z);
      [discriminate | now injection Ek as <-].
Qed.

End Picking.

(** C7.  In the graph variant the node features of the model are the
    identity matrix of size [sum(IdRange)], the size of the adjacency
    matrix: the feature of a node is its own one-hot indicator; and for
    every batch [x] of field ids the embedding lookup is one convolution
    over these features and the edges of the adjacency matrix, followed by
    picking the rows [x] of the result: for ids in [-n, n), [n] the number
    of rows of the result, the vector of an id is the row at its residue
    modulo [n], and an id outside makes the lookup raise [IndexError]. *)
Theorem graph_embedding_is_convolution_of_identity `{MP : MessagePassing}
  (idrange : list nat) (field_dim embed_dim : nat) (matrix : spmatrix)
  (attention : bool) (v : FactorizationMachineModel.initial)
  (gen : Generator) (x : LongTensor2) :
  shape matrix = (list_sum idrange, list_sum idrange) ->
  exists g,
    FactorizationMachineModel.embedding
      (FactorizationMachineModel.init field_dim embed_dim (Some matrix) attention v)
    = FactorizationMachineModel.Graph g
    /\ size (GraphModel.features g) = (list_sum idrange, list_sum idrange)
    /\ to_dense (GraphModel.features g) = eye (list_sum idrange)
    /\ GraphModel.matrix g = (row matrix, col matrix)
    /\ let out :=
         match GraphModel.gcn g with
         | GraphModel.GCN c =>
             gcn_conv c (GraphModel.features g) (GraphModel.matrix g)
         | GraphModel.GAT c =>
             gat_conv c
               (Dropout.dropout (GATConv.dropout c) (GATConv.training c) gen)
               (GraphModel.features g) (GraphModel.matrix g)
         end in
       let n := Z.of_nat (rows2 out) in
       (Forall (Forall (fun i => (- n <= i < n)%Z)) (ldata x) ->
        FactorizationMachineModel.embed (FactorizationMachineModel.Graph g) gen x
        = Ok (mkT3 (lrows x) (lcols x) (cols2 out)
                (map (map (fun i => nth (Z.to_nat (i mod n)) (data2 out) []))
                     (ldata x))))
       /\ (forall r i,
              In r (ldata x) -> In i r -> ~ (- n <= i < n)%Z ->
              FactorizationMachineModel.embed (FactorizationMachineModel.Graph g) gen x
              = Raise IndexError).
Proof.
  intros Hshape. eexists. split; [reflexivity|].
  cbn [GraphModel.features GraphModel.matrix GraphModel.init
       from_scipy_sparse_matrix tocoo fst snd].
  rewrite Hshape. cbn [fst].
  split; [reflexivity|]. split; [apply identity_to_dense|].
  split; [reflexivity|]. cbv zeta. split.
  - intros Hx. apply (index_rows_pick _ x Hx).
  - intros r i Hr Hi Hout. apply (index_rows_out _ x r i Hr Hi Hout).
Qed.

Lemma graph_embedding_is_convolution_of_identity_witness :
  let out :=
    gcn_conv (MessagePassing := Samples.plain_product)
      (GCNConv.init 3 2
         (GraphModel.weight_values
            (FactorizationMachineModel.graph_values Samples.values)))
      (sparse_scipy_matrix_to_tensor (Sparse.identity 3))
      ([0; 0; 1; 2], [1; 2; 0; 0])%nat in
  to_dense (sparse_scipy_matrix_to_tensor (Sparse.identity 3)) = eye 3
  /\ FactorizationMachineModel.embed (MP := Samples.plain_product)
       (FactorizationMachineModel.embedding Samples.graph_model)
       Samples.gen_low EdgeSamples.rows_from_end
     = Ok (mkT3 2 2 2
             [[nth 0 (data2 out) []; nth 2 (data2 out) []];
              [nth 0 (data2 out) []; nth 2 (data2 out) []]]).
Proof.
  destruct (graph_embedding_is_convolution_of_identity (MP := Samples.plain_product)
              [1; 2]%nat 3 2 Samples.adjacency false Samples.values
              Samples.gen_low EdgeSamples.rows_from_end eq_refl)
    as [g [Hg [_ [Hid [_ [Hpick _]]]]]].
  injection Hg as <-. split; [exact Hid|].
  apply Hpick. repeat constructor; simpl; lia.
Defined.

(** ** Evaluation mode *)

Section Evaluation.

Context `{MP : MessagePassing}.

(** Outside training the dropout of the attention convolution does not
    read the generator, so the convolution does not either. *)
Lemma convolve_eval (g : GraphModel.t) (gen1 gen2 : Generator) :
  GraphModel.convolve (GraphModel.eval g) gen1 =
  GraphModel.convolve (GraphModel.eval g) gen2.
Proof.
  unfold GraphModel.convolve, GraphModel.eval.
  destruct (GraphModel.gcn g) as [c|c]; reflexivity.
Qed.

Lemma embed_eval (m : FactorizationMachineModel.t) (gen1 gen2 : Generator)
  (x : LongTensor2) :
  FactorizationMachineModel.shipped m ->
  FactorizationMachineModel.embed
    (FactorizationMachineModel.embedding (FactorizationMachineModel.eval m)) gen1 x =
  FactorizationMachineModel.embed
    (FactorizationMachineModel.embedding (FactorizationMachineModel.eval m)) gen2 x.
Proof.
  unfold FactorizationMachineModel.shipped, FactorizationMachineModel.eval.
  destruct (FactorizationMachineModel.embedding m) as [e|g|o]; simpl; intros S.
  - reflexivity.
  - unfold GraphModel.forward. now rewrite (convolve_eval g gen1 gen2).
  - destruct S.
Qed.

Lemma forward_eval (m : FactorizationMachineModel.t) (gen1 gen2 : Generator)
  (x : LongTensor2) :
  FactorizationMachineModel.shipped m ->
  FactorizationMachineModel.forward (FactorizationMachineModel.eval m) gen1 x =
  FactorizationMachineModel.forward (FactorizationMachineModel.eval m) gen2 x.
Proof.
  intros S. unfold FactorizationMachineModel.forward.
  now rewrite (embed_eval m gen1 gen2 x S).
Qed.

End Evaluation.

(** In training the attention variant does read the generator: two
    states of it give two different batches of scores. *)
Example forward_training_reads_generator :
  FactorizationMachineModel.forward (MP := Samples.plain_product)
    Samples.attention_model Samples.gen_low Samples.rows
  <> FactorizationMachineModel.forward (MP := Samples.plain_product)
       Samples.attention_model Samples.gen_high Samples.rows.
Proof.
  intros E.
  apply (f_equal (fun r => match r with
                           | Ok l => map this l
                           | Raise _ => []
                           end)) in E.
  vm_compute in E. discriminate E.
Qed.

(** C8.  On a model in evaluation mode, with either embedding variant of
    the constructor, attention with its dropout included, scoring and
    recommending are deterministic: two runs on the same rows and the same
    parameters return the same, whatever the state of the random number
    generator at each run. *)
Theorem eval_forward_deterministic `{MP : MessagePassing}
  (m : FactorizationMachineModel.t) (x : LongTensor2) (gen1 gen2 : Generator)
  (idrange : list nat) (liked_id : Z) (top_k : nat) :
  FactorizationMachineModel.shipped m ->
  FactorizationMachineModel.forward (FactorizationMachineModel.eval m) gen1 x =
  FactorizationMachineModel.forward (FactorizationMachineModel.eval m) gen2 x
  /\ Recommender.recommend idrange m gen1 liked_id top_k =
     Recommender.recommend idrange m gen2 liked_id top_k.
Proof.
  intros S. split.
  - now apply forward_eval.
  - unfold Recommender.recommend. now rewrite (forward_eval m gen1 gen2 _ S).
Qed.

Lemma eval_forward_deterministic_witness :
  FactorizationMachineModel.forward (MP := Samples.plain_product)
    (FactorizationMachineModel.eval Samples.attention_model)
    Samples.gen_low Samples.rows =
  FactorizationMachineModel.forward (MP := Samples.plain_product)
    (FactorizationMachineModel.eval Samples.attention_model)
    Samples.gen_high Samples.rows
  /\ Recommender.recommend (MP := Samples.plain_product) [1; 2]%nat
       Samples.attention_model Samples.gen_low 1 3 =
     Recommender.recommend (MP := Samples.plain_product) [1; 2]%nat
       Samples.attention_model Samples.gen_high 1 3.
Proof.
  exact (eval_forward_deterministic (MP := Samples.plain_product)
           Samples.attention_model Samples.rows Samples.gen_low Samples.gen_high
           [1; 2]%nat 1%Z 3%nat I).
Defined.

(** ** The [recommend] command *)

Section Command.

Context {Model Items Item Found : Type}.
Context `{Op : CLI.Operation Model Items Item Found}.

(** The loop handles a list of names in order: what it does on
    [before ++ after] is what it does on [before] and then, if nothing
    was raised, on [after]. *)
Lemma queries_app (finder : string -> result Found)
  (recommender : Z -> Z -> result (list (Item * Qc))) (topk : Z)
  (before after : list string) : forall log,
  CLI.queries finder recommender topk (before ++ after) log =
  match CLI.queries finder recommender topk before log with
  | (Ok _, log') => CLI.queries finder recommender topk after log'
  | (Raise e, log') => (Raise e, log')
  end.
Proof.
  induction before as [|name before IH]; intros log; simpl.
  - reflexivity.
  - destruct (finder name) as [r|e]; [|reflexivity].
    destruct (recommender (CLI.id r) topk) as [recs|e]; [|reflexivity].
    apply IH.
Qed.

End Command.

(** C5, as stated, fails: with the names ["missing"] and ["known"], the
    error of the finder for the first leaves the command as it was
    raised; no error record is logged for it and nothing is logged for
    the second name. *)
Lemma recommend_raises_on_missing_item :
  CLI.recommend (Op := Samples.serving) "model.pt" ["missing"; "known"]%string [] 3
  = (Raise NotFoundError,
     [CLI.Info "reading model file..."; CLI.InfoLoaded tt])
  /\ CLI.recommend (Op := Samples.serving) "model.pt" ["known"]%string [] 3
     = (Ok CLI.RetNone,
        [CLI.Info "reading model file..."; CLI.InfoLoaded tt;
         CLI.InfoFound 1%Z; CLI.Info "looking for recommendations...";
         CLI.InfoRating (Samples.q 1 2) "other"%string]).
Proof.
  split; reflexivity.
Qed.

(** C5, amended.  In one invocation of the command over several names,
    an error raised for one name by the finder is not caught: it leaves
    the command as it was raised, after the names before it have been
    handled and logged, with no record logged for it, and the names after
    it are not handled.  Only a failure to load the model file is caught:
    it is logged as an error and the command returns. *)
Theorem recommend_stops_at_failing_query
  {Model Items Item Found : Type} `{Op : CLI.Operation Model Items Item Found}
  (path : string) (before after fields : list string) (name : string) (topk : Z) :
  (forall model idrange items e log,
      CLI.load_model path = Ok (Some model, idrange, items) ->
      CLI.recommend path before fields topk = (Ok CLI.RetNone, log) ->
      CLI.Finder (CLI.dropna items) fields name = Raise e ->
      CLI.recommend path (before ++ name :: after) fields topk = (Raise e, log))
  /\ (forall e,
         CLI.load_model path = Raise e ->
         CLI.recommend path (before ++ name :: after) fields topk
         = (Ok CLI.RetFalse,
            [CLI.Info "reading model file..."; CLI.Error "failed to load model file"])).
Proof.
  split.
  - intros model idrange items e log Hload Hbefore Hfind.
    unfold CLI.recommend in *. rewrite Hload in *.
    rewrite queries_app, Hbefore. simpl. now rewrite Hfind.
  - intros e Hload. unfold CLI.recommend. now rewrite Hload.
Qed.

Lemma recommend_stops_at_failing_query_witness :
  CLI.recommend (Op := Samples.serving) "model.pt"
    (["known"%string] ++ "missing"%string :: ["known"%string]) [] 3
  = (Raise NotFoundError,
     [CLI.Info "reading model file..."; CLI.InfoLoaded tt;
      CLI.InfoFound 1%Z; CLI.Info "looking for recommendations...";
      CLI.InfoRating (Samples.q 1 2) "other"%string])
  /\ CLI.recommend (Op := Samples.serving) "nothing.pt"
       (["known"%string] ++ "missing"%string :: ["known"%string]) [] 3
     = (Ok CLI.RetFalse,
        [CLI.Info "reading model file..."; CLI.Error "failed to load model file"]).
Proof.
  split.
  - apply (proj1 (recommend_stops_at_failing_query (Op := Samples.serving)
                    "model.pt" ["known"]%string ["known"]%string [] "missing" 3)
             tt [1; 2]%nat tt NotFoundError); reflexivity.
  - apply (proj2 (recommend_stops_at_failing_query (Op := Samples.serving)
                    "nothing.pt" ["known"]%string ["known"]%string [] "missing" 3)
             (OtherError "no such file")); reflexivity.
Defined.

(** ** The sparse conversions *)

Section SparseRoundTrip.

Local Open Scope Qc_scope.

Lemma get_cons (e : nat * nat * Qc) (l : list (nat * nat * Qc)) (i j : nat) :
  get (e :: l) i j =
  (if ((fst (fst e) =? i) && (snd (fst e) =? j))%nat then snd e else 0) + get l i j.
Proof. reflexivity. Qed.

Lemma get_nil (i j : nat) : get [] i j = 0.
Proof. reflexivity. Qed.

Lemma get_insert_entry (e : nat * nat * Qc) (i j : nat) :
  forall l, get (insert_entry e l) i j = get l i j + get [e] i j.
Proof.
  induction l as [|e' l IH]; cbn [insert_entry].
  - rewrite !get_cons, !get_nil. ring.
  - destruct (coord_eqb (fst e) (fst e')) eqn:Eq.
    + unfold coord_eqb in Eq. apply andb_true_iff in Eq. destruct Eq as [E1 E2].
      apply Nat.eqb_eq in E1, E2. rewrite !get_cons, get_nil. cbn [fst snd].
      rewrite E1, E2.
      destruct ((fst (fst e') =? i) && (snd (fst e') =? j))%nat; ring.
    + destruct (coord_ltb (fst e) (fst e')).
      * rewrite !get_cons, get_nil. ring.
      * rewrite (get_cons e'), IH, (get_cons e'). ring.
Qed.

Lemma get_fold_insert (i j : nat) (es : list (nat * nat * Qc)) :
  forall acc,
    get (fold_left (fun acc e => insert_entry e acc) es acc) i j
    = get acc i j + get es i j.
Proof.
  induction es as [|e es IH]; intros acc; cbn [fold_left].
  - rewrite get_nil. ring.
  - rewrite IH, get_insert_entry, (get_cons e es), !get_cons, get_nil. ring.
Qed.

Lemma entries_split (es : list (nat * nat * Qc)) :
  entries (map (fun e => fst (fst e)) es, map (fun e => snd (fst e)) es)
          (map snd es) = es.
Proof.
  unfold entries. cbn [fst snd].
  induction es as [|[[r c] v] es IH]; simpl; [reflexivity | now rewrite IH].
Qed.

(** Coalescing keeps the value of every entry. *)
Lemma st_get_coalesce (t : SparseTensor) (i j : nat) :
  st_get (coalesce t) i j = st_get t i j.
Proof.
  unfold st_get, coalesce. cbn [indices values].
  rewrite entries_split, get_fold_insert, get_nil. ring.
Qed.

(** The two conversions in a row keep the value of every entry. *)
Lemma round_trip_entries (m : spmatrix) (i j : nat) :
  sp_get (sparse_tensor_to_scipy_matrix (sparse_scipy_matrix_to_tensor m)) i j
  = sp_get m i j.
Proof.
  unfold sparse_tensor_to_scipy_matrix, to_scipy_sparse_matrix, sp_get.
  cbn [row col data].
  change (st_get (coalesce (sparse_scipy_matrix_to_tensor m)) i j = sp_get m i j).
  now rewrite st_get_coalesce.
Qed.

(** The shape that comes back is square, one more than the largest
    index in use, whatever the shape of the matrix was. *)
Lemma round_trip_shape (m : spmatrix) :
  shape (sparse_tensor_to_scipy_matrix (sparse_scipy_matrix_to_tensor m))
  = let t := coalesce (sparse_scipy_matrix_to_tensor m) in
    let N := maybe_num_nodes (indices t) None in
    (N, N).
Proof. reflexivity. Qed.

End SparseRoundTrip.

(** C9 at a matrix whose last rows and columns are empty.  The matrix of
    shape [(3, 3)] with its one entry at [(0, 0)] comes back from
    [sparse_scipy_matrix_to_tensor] and [sparse_tensor_to_scipy_matrix]
    with the same entries and with the shape [(1, 1)]. *)
Theorem round_trip_corner :
  let back := sparse_tensor_to_scipy_matrix
                (sparse_scipy_matrix_to_tensor Samples.corner) in
  shape Samples.corner = (3, 3)%nat
  /\ shape back = (1, 1)%nat
  /\ shape back <> shape Samples.corner
  /\ forall i j, sp_get back i j = sp_get Samples.corner i j.
Proof.
  cbv zeta. split; [reflexivity|]. split; [reflexivity|].
  split; [discriminate|]. intros i j. apply round_trip_entries.
Qed.

(** * Further properties *)

(** ** The interaction term without reduction *)

Section Unreduced.

Local Open Scope Qc_scope.

(** One coordinate of the polynomial identity: no assumption on the
    lengths of the vectors, a missing coordinate counting as zero. *)
Lemma coordinate_identity (k : nat) (ex : list (list Qc)) :
  sq (qsum (map (fun v => nth k v 0) ex)) - qsum (map (fun v => sq (nth k v 0)) ex)
  = coordinate_pairs k ex + coordinate_pairs k ex.
Proof.
  induction ex as [|v rest IH].
  - unfold qsum, sq. simpl. ring.
  - cbn [coordinate_pairs map]. rewrite qsum_map_scale.
    change (qsum (?a :: ?l)) with (a + qsum l).
    transitivity
      ((sq (qsum (map (fun v => nth k v 0) rest))
        - qsum (map (fun v => sq (nth k v 0)) rest))
       + (nth k v 0 * qsum (map (fun v => nth k v 0) rest)
          + nth k v 0 * qsum (map (fun v => nth k v 0) rest))).
    + unfold sq. ring.
    + rewrite IH. ring.
Qed.

End Unreduced.

(** X1.  Without [reduce_sum] the interaction term keeps one number per
    coordinate: entry [k] of the row of an example is the sum over the
    pairs of fields [f < g] of the products of their [k]-th
    coordinates. *)
Theorem fm_forward_unreduced (x : Tensor3) :
  fm_forward (mkFMOp false) x =
  mkT2 (dim0 x) (dim2 x)
    (map (fun ex => map (fun k => coordinate_pairs k ex) (seq 0 (dim2 x))) (data3 x)).
Proof.
  apply tensor2_eq; try reflexivity.
  rewrite fm_forward_data. cbn [reduce_sum data2].
  apply map_ext. intros ex. unfold ix_row. rewrite map_map.
  apply map_ext. intros k. rewrite coordinate_identity. apply half_double.
Qed.

(** X2.  The interaction term of a well-formed batch is a well-formed
    tensor with one row per example, of one column with [reduce_sum] and
    of [embed_dim] columns without. *)
Theorem fm_forward_well_formed (self : FactorizationMachineOperation) (x : Tensor3) :
  wf3 x ->
  wf2 (fm_forward self x)
  /\ size2 (fm_forward self x) = (dim0 x, if reduce_sum self then 1%nat else dim2 x).
Proof.
  intros [Hrows _]. split; [|apply fm_forward_size].
  assert (Hr : rows2 (fm_forward self x) = dim0 x)
    by (destruct self as [[|]]; reflexivity).
  assert (Hc : cols2 (fm_forward self x) = if reduce_sum self then 1%nat else dim2 x)
    by (destruct self as [[|]]; reflexivity).
  split.
  - rewrite Hr, fm_forward_data, length_map. exact Hrows.
  - rewrite Hc, fm_forward_data. apply Forall_forall. intros r Hin.
    apply in_map_iff in Hin. destruct Hin as [ex [<- _]].
    rewrite length_map. destruct (reduce_sum self); [reflexivity|].
    unfold ix_row. now rewrite length_map, length_seq.
Qed.

Lemma fm_forward_well_formed_witness :
  wf2 (fm_forward (mkFMOp false) Samples.batch)
  /\ size2 (fm_forward (mkFMOp false) Samples.batch) = (2, 2)%nat.
Proof.
  apply (fm_forward_well_formed (mkFMOp false) Samples.batch).
  split; [reflexivity | repeat constructor].
Defined.

(** X3.  Reducing is summing: the interaction term with [reduce_sum] is
    the sum over the coordinates, kept as a column, of the interaction
    term without. *)
Theorem fm_forward_reduce_is_sum (x : Tensor3) :
  fm_forward (mkFMOp true) x = sum2_dim1_keepdim (fm_forward (mkFMOp false) x).
Proof.
  apply tensor2_eq; try reflexivity.
  unfold sum2_dim1_keepdim. cbn [data2]. rewrite !fm_forward_data.
  cbn [reduce_sum]. rewrite map_map. apply map_ext. intros ex.
  cbn [map]. f_equal.
  rewrite <- (map_id (ix_row (dim2 x) ex)) at 1.
  rewrite (qsum_map_scale half (fun a => a)). reflexivity.
Qed.

(** ** The score of a row *)

Section Scores.

Local Open Scope Qc_scope.
Context `{MP : MessagePassing}.

(** The forward pass on valid ids, row by row. *)
Lemma forward_ok (m : FactorizationMachineModel.t) (gen : Generator)
  (x : LongTensor2) :
  Score.well_formed m ->
  Score.ids_in
    (Embedding.num_embeddings (LinearFeatures.fc (FactorizationMachineModel.linear m))) x ->
  Score.ids_in (rows2 (Score.table (FactorizationMachineModel.embedding m) gen)) x ->
  FactorizationMachineModel.forward m gen x = Ok (map (Score.score m gen) (ldata x)).
Proof.
  intros (Hd & Hb & Hr & Hs) Hlin Hemb.
  unfold FactorizationMachineModel.forward.
  rewrite (linear_forward_ok _ _ Hd Hb Hlin). cbn [bind].
  rewrite (embed_ok _ _ _ Hs Hemb). cbv zeta. cbn [bind].
  unfold squeeze1, add2. cbn [data2]. rewrite fm_forward_data, Hr.
  cbn [data3 dim2]. rewrite (map_map (map _)), map2_map_map, map_map.
  reflexivity.
Qed.

(** The score of a row does not depend on the order of its ids. *)
Lemma score_Permutation (m : FactorizationMachineModel.t) (gen : Generator)
  (ids ids' : list Z) :
  Permutation ids ids' -> Score.score m gen ids = Score.score m gen ids'.
Proof.
  intros P. unfold Score.score, Score.linear_term, Score.interaction_term.
  cbv zeta.
  rewrite (qsum_Permutation _ _ (Permutation_map _ P)).
  rewrite (ix_row_Permutation _ _ _ (Permutation_map _ P)).
  reflexivity.
Qed.

(** A row of a well-formed table picked by an id in range has the
    table's number of columns. *)
Lemma lookup_length (t : Tensor2) (i : Z) :
  wf2 t -> (0 <= i < Z.of_nat (rows2 t))%Z ->
  length (Score.lookup t i) = cols2 t.
Proof.
  intros [Hrows Hcols] Hi. unfold Score.lookup.
  rewrite Forall_forall in Hcols. apply Hcols, nth_In. lia.
Qed.

(** With two fields the interaction term is one dot product. *)
Lemma interaction_of_pair (d : nat) (u v : list Qc) :
  length u = d -> length v = d ->
  Score.interaction_term d [u; v] = BruteForce.dot u v.
Proof.
  intros Hu Hv. unfold Score.interaction_term.
  rewrite (ix_row_pairwise d [u; v]) by (repeat constructor; assumption).
  rewrite half_double. unfold qsum. simpl. ring.
Qed.

Lemma ids_in_pairs (n : nat) (pairs : list (Z * Z)) :
  Forall (fun p => (0 <= fst p < Z.of_nat n)%Z /\ (0 <= snd p < Z.of_nat n)%Z) pairs ->
  Score.ids_in n (pairs_batch pairs).
Proof.
  intros H. unfold Score.ids_in, pairs_batch. cbn [ldata].
  apply Forall_forall. intros r Hr. apply in_map_iff in Hr.
  destruct Hr as [p [<- Hp]]. rewrite Forall_forall in H.
  destruct (H p Hp) as [Hu Hi].
  apply Forall_cons; [exact Hu|]. apply Forall_cons; [exact Hi|]. apply Forall_nil.
Qed.

End Scores.

(** X4.  Over exact rationals, on rows of two ids, a user and an item,
    the model is a matrix factorization with biases: for a well-formed
    model whose table of
    embedding vectors is well formed and ids inside the tables, the
    score of [(user, item)] is the weight of the user plus the weight of
    the item plus the bias plus the dot product of their two embedding
    vectors. *)
Theorem forward_of_pairs `{MP : MessagePassing}
  (m : FactorizationMachineModel.t) (gen : Generator) (n : nat)
  (pairs : list (Z * Z)) :
  Score.well_formed m ->
  Embedding.num_embeddings
    (LinearFeatures.fc (FactorizationMachineModel.linear m)) = n ->
  rows2 (Score.table (FactorizationMachineModel.embedding m) gen) = n ->
  wf2 (Score.table (FactorizationMachineModel.embedding m) gen) ->
  Forall (fun p => (0 <= fst p < Z.of_nat n)%Z /\ (0 <= snd p < Z.of_nat n)%Z) pairs ->
  FactorizationMachineModel.forward m gen (pairs_batch pairs)
  = Ok (map (fun p => pair_score m gen (fst p) (snd p)) pairs).
Proof.
  intros Hm Hlin Hrows Hwf Hids.
  rewrite forward_ok; [| exact Hm | rewrite Hlin | rewrite Hrows];
    try now apply ids_in_pairs.
  f_equal. unfold pairs_batch. cbn [ldata]. rewrite map_map.
  apply map_ext_in. intros [u i] Hp. cbn [fst snd].
  rewrite Forall_forall in Hids. destruct (Hids _ Hp) as [Hu Hi].
  cbn [fst snd] in Hu, Hi. rewrite <- Hrows in Hu, Hi.
  unfold Score.score, pair_score. cbv zeta. cbn [map].
  rewrite interaction_of_pair by (now apply lookup_length).
  unfold Score.linear_term, qsum. simpl. ring.
Qed.

Lemma forward_of_pairs_witness :
  FactorizationMachineModel.forward (MP := Samples.plain_product)
    Samples.graph_model Samples.gen_low (pairs_batch [(0, 1); (0, 2)]%Z)
  = Ok (map (fun p => pair_score (MP := Samples.plain_product)
                        Samples.graph_model Samples.gen_low (fst p) (snd p))
          [(0, 1); (0, 2)]%Z).
Proof.
  apply (forward_of_pairs (MP := Samples.plain_product)
           Samples.graph_model Samples.gen_low 3 [(0, 1); (0, 2)]%Z).
  - repeat split; reflexivity.
  - reflexivity.
  - reflexivity.
  - split; [reflexivity | repeat constructor].
  - repeat constructor; simpl; lia.
Defined.

Section Columns.

Context `{MP : MessagePassing}.

Lemma ids_in_permute (n : nat) (p : list nat) (x : LongTensor2) :
  wfL2 x -> Permutation p (seq 0 (lcols x)) ->
  Score.ids_in n x -> Score.ids_in n (permute_columns p x).
Proof.
  intros [_ Hcols] P Hx. unfold Score.ids_in, permute_columns in *. cbn [ldata].
  apply Forall_forall. intros r' Hr'. apply in_map_iff in Hr'.
  destruct Hr' as [r [<- Hr]].
  rewrite Forall_forall in Hcols, Hx. rewrite <- (Hcols r Hr) in P.
  apply (Permutation_Forall (Permutation_sym (reorder_Permutation 0%Z p r P))).
  now apply Hx.
Qed.

End Columns.

(** X5.  The score of a row does not depend on the order of its fields:
    for a well-formed model and ids inside the tables, reordering the
    columns of the batch by a permutation of their positions leaves every
    score as it was; [(item, user)] scores as [(user, item)]. *)
Theorem forward_column_order `{MP : MessagePassing}
  (m : FactorizationMachineModel.t) (gen : Generator) (x : LongTensor2)
  (p : list nat) :
  Score.well_formed m ->
  wfL2 x ->
  Score.ids_in
    (Embedding.num_embeddings (LinearFeatures.fc (FactorizationMachineModel.linear m))) x ->
  Score.ids_in (rows2 (Score.table (FactorizationMachineModel.embedding m) gen)) x ->
  Permutation p (seq 0 (lcols x)) ->
  FactorizationMachineModel.forward m gen (permute_columns p x)
  = FactorizationMachineModel.forward m gen x.
Proof.
  intros Hm Hx Hlin Hemb P.
  rewrite (forward_ok m gen x Hm Hlin Hemb).
  rewrite (forward_ok m gen (permute_columns p x) Hm
             (ids_in_permute _ p x Hx P Hlin) (ids_in_permute _ p x Hx P Hemb)).
  f_equal. unfold permute_columns. cbn [ldata]. rewrite map_map.
  apply map_ext_in. intros r Hr. apply score_Permutation.
  destruct Hx as [_ Hcols]. rewrite Forall_forall in Hcols.
  rewrite <- (Hcols r Hr) in P. now apply reorder_Permutation.
Qed.

Lemma forward_column_order_witness :
  FactorizationMachineModel.forward (MP := Samples.plain_product)
    Samples.plain_model Samples.gen_low (permute_columns [1; 0]%nat Samples.rows)
  = FactorizationMachineModel.forward (MP := Samples.plain_product)
      Samples.plain_model Samples.gen_low Samples.rows.
Proof.
  apply (forward_column_order (MP := Samples.plain_product)
           Samples.plain_model Samples.gen_low Samples.rows [1; 0]%nat).
  - repeat split; reflexivity.
  - split; [reflexivity | repeat constructor].
  - repeat constructor; simpl; lia.
  - repeat constructor; simpl; lia.
  - apply perm_swap.
Defined.

(** ** Ids outside the tables *)

Section OutOfRange.

(** The table lookup raises nothing but [IndexError], and raises it as
    soon as one id of the batch is outside the table. *)
Lemma embedding_forward_out_of_range (e : Embedding.t) (x : LongTensor2)
  (r : list Z) (i : Z) :
  In r (ldata x) -> In i r ->
  ~ (0 <= i < Z.of_nat (Embedding.num_embeddings e))%Z ->
  Embedding.forward e x = Raise IndexError.
Proof.
  intros Hr Hi Hout. unfold Embedding.forward.
  assert (Hrow : forall j err, Embedding.row e j = Raise err -> err = IndexError).
  { intros j err. unfold Embedding.row.
    destruct ((0 <=? j)%Z && (j <? Z.of_nat (Embedding.num_embeddings e))%Z);
      [discriminate | now intros [= <-]]. }
  destruct (mapM (mapM (Embedding.row e)) (ldata x)) as [d|err] eqn:E; cbn [bind].
  - exfalso. destruct (mapM_Ok_inv _ _ _ E r Hr) as [vs Evs].
    destruct (mapM_Ok_inv _ _ _ Evs i Hi) as [v Ev].
    unfold Embedding.row in Ev.
    destruct (Z.leb_spec 0 i), (Z.ltb_spec i (Z.of_nat (Embedding.num_embeddings e)));
      simpl in Ev; try discriminate. lia.
  - f_equal. destruct (mapM_Raise_inv _ _ _ E) as [r' [_ Er']].
    destruct (mapM_Raise_inv _ _ _ Er') as [j [_ Ej]]. now apply (Hrow j).
Qed.

End OutOfRange.

(** X6.  An id outside [0, field_dim), negative ids included, makes the
    whole forward pass raise [IndexError], whatever the other ids and
    whatever the embedding source: the linear part looks every id up
    first. *)
Theorem forward_out_of_range_raises `{MP : MessagePassing}
  (m : FactorizationMachineModel.t) (gen : Generator) (x : LongTensor2)
  (r : list Z) (i : Z) :
  In r (ldata x) -> In i r ->
  ~ (0 <= i < Z.of_nat (Embedding.num_embeddings
                          (LinearFeatures.fc (FactorizationMachineModel.linear m))))%Z ->
  FactorizationMachineModel.forward m gen x = Raise IndexError.
Proof.
  intros Hr Hi Hout.
  unfold FactorizationMachineModel.forward, LinearFeatures.forward.
  now rewrite (embedding_forward_out_of_range _ x r i Hr Hi Hout).
Qed.

Lemma forward_out_of_range_raises_witness :
  FactorizationMachineModel.forward (MP := Samples.plain_product)
    Samples.graph_model Samples.gen_low (mkL2 2 2 [[0; 1]; [2; -1]]%Z)
  = Raise IndexError.
Proof.
  apply (forward_out_of_range_raises (MP := Samples.plain_product)
           Samples.graph_model Samples.gen_low (mkL2 2 2 [[0; 1]; [2; -1]]%Z)
           [2; -1]%Z (-1)%Z).
  - right. left. reflexivity.
  - right. left. reflexivity.
  - simpl. lia.
Defined.

(** X7.  With the plain table, [get_embedding_weight] returns the very
    table the forward pass looks the ids up in: the embedding of a batch
    of ids inside the table is, id by id, the row of that matrix. *)
Theorem plain_weight_is_lookup_table `{MP : MessagePassing}
  (m : FactorizationMachineModel.t) (e : Embedding.t) (gen : Generator)
  (x : LongTensor2) :
  FactorizationMachineModel.embedding m = FactorizationMachineModel.Plain e ->
  Score.ids_in (Embedding.num_embeddings e) x ->
  exists w,
    FactorizationMachineModel.get_embedding_weight m = Ok w
    /\ FactorizationMachineModel.embed (FactorizationMachineModel.embedding m) gen x
       = Ok (mkT3 (lrows x) (lcols x) (cols2 w)
               (map (map (fun i => nth (Z.to_nat i) (data2 w) [])) (ldata x))).
Proof.
  intros He Hx. exists (Embedding.weight e).
  unfold FactorizationMachineModel.get_embedding_weight. rewrite He. cbn.
  split; [reflexivity|]. now rewrite (embedding_forward_ok e x Hx).
Qed.

Lemma plain_weight_is_lookup_table_witness :
  exists w,
    FactorizationMachineModel.get_embedding_weight Samples.plain_model = Ok w
    /\ FactorizationMachineModel.embed (MP := Samples.plain_product)
         (FactorizationMachineModel.embedding Samples.plain_model)
         Samples.gen_low Samples.rows
       = Ok (mkT3 2 2 (cols2 w)
               (map (map (fun i => nth (Z.to_nat i) (data2 w) []))
                  (ldata Samples.rows))).
Proof.
  apply (plain_weight_is_lookup_table (MP := Samples.plain_product)
           Samples.plain_model
           (Embedding.init 3 2
              (FactorizationMachineModel.embedding_values Samples.values))
           Samples.gen_low Samples.rows).
  - reflexivity.
  - repeat constructor; simpl; lia.
Defined.

(** ** The two conversions in a row *)

Section RoundTripShape.

Local Open Scope Qc_scope.

Lemma coord_eqb_eq (a b : nat * nat) : coord_eqb a b = true -> a = b.
Proof.
  destruct a, b. unfold coord_eqb. cbn [fst snd]. intros E.
  apply andb_true_iff in E. destruct E as [E1 E2].
  apply Nat.eqb_eq in E1, E2. now subst.
Qed.

(** Inserting an entry adds its coordinates to the ones present and
    nothing else. *)
Lemma coords_insert_entry (e : nat * nat * Qc) (c : nat * nat) :
  forall l, In c (map fst (insert_entry e l)) <-> c = fst e \/ In c (map fst l).
Proof.
  induction l as [|e' l IH]; cbn [insert_entry].
  - simpl. intuition auto.
  - destruct (coord_eqb (fst e) (fst e')) eqn:Eq.
    + apply coord_eqb_eq in Eq. cbn [map fst In]. rewrite Eq. intuition auto.
    + destruct (coord_ltb (fst e) (fst e')); cbn [map In].
      * intuition auto.
      * rewrite IH. intuition auto.
Qed.

Lemma coords_fold_insert (c : nat * nat) (es : list (nat * nat * Qc)) :
  forall acc,
    In c (map fst (fold_left (fun acc e => insert_entry e acc) es acc))
    <-> In c (map fst es) \/ In c (map fst acc).
Proof.
  induction es as [|e es IH]; intros acc; cbn [fold_left map In].
  - intuition auto.
  - rewrite IH, coords_insert_entry. intuition auto.
Qed.

(** The indices in use, rows then columns, are the components of the
    coordinates. *)
Lemma index_in_use (es : list (nat * nat * Qc)) (k : nat) :
  In k (map (fun e => fst (fst e)) es ++ map (fun e => snd (fst e)) es)
  <-> exists c, In c (map fst es) /\ (fst c = k \/ snd c = k).
Proof.
  rewrite in_app_iff, !in_map_iff. split.
  - intros [[e [<- He]]|[e [<- He]]]; exists (fst e);
      (split; [now apply in_map | auto]).
  - intros [c [Hc [<-|<-]]]; apply in_map_iff in Hc; destruct Hc as [e [<- He]];
      [left | right]; now exists e.
Qed.

Lemma list_max_same (l l' : list nat) :
  (forall k, In k l <-> In k l') -> list_max l = list_max l'.
Proof.
  intros E. apply Nat.le_antisymm; apply list_max_le, Forall_forall;
    intros k Hk; apply E in Hk;
    [pose proof (proj1 (list_max_le l' (list_max l')) (Nat.le_refl _)) as F
    |pose proof (proj1 (list_max_le l (list_max l)) (Nat.le_refl _)) as F];
    rewrite Forall_forall in F; now apply F.
Qed.

Lemma entries_valid (m : spmatrix) :
  coo_valid m ->
  map (fun e => fst (fst e)) (entries (row m, col m) (data m)) = row m
  /\ map (fun e => snd (fst e)) (entries (row m, col m) (data m)) = col m.
Proof.
  unfold coo_valid, entries. cbn [fst snd].
  destruct m as [sh r c d]. cbn [Sparse.row Sparse.col Sparse.data].
  revert c d. induction r as [|a r IH]; intros [|b c] [|v d] [H1 H2];
    try discriminate; [split; reflexivity|].
  cbn [combine map fst snd]. injection H1 as H1. injection H2 as H2.
  destruct (IH c d (conj H1 H2)) as [E1 E2]. now rewrite E1, E2.
Qed.

End RoundTripShape.

(** X8.  The two conversions in a row keep the value of every entry of
    every matrix, coordinates stored more than once included: their
    values come back added up. *)
Theorem round_trip_keeps_entries (m : spmatrix) (i j : nat) :
  sp_get (sparse_tensor_to_scipy_matrix (sparse_scipy_matrix_to_tensor m)) i j
  = sp_get m i j.
Proof.
  apply round_trip_entries.
Qed.

(** The side of the shape that comes back. *)
Lemma round_trip_shape_max (m : spmatrix) :
  coo_valid m ->
  row m <> [] ->
  shape (sparse_tensor_to_scipy_matrix (sparse_scipy_matrix_to_tensor m))
  = (S (list_max (row m ++ col m)), S (list_max (row m ++ col m))).
Proof.
  intros Hm Hne. rewrite round_trip_shape. cbv zeta.
  unfold maybe_num_nodes, coalesce, sparse_scipy_matrix_to_tensor,
    sparse_coo_tensor, tocoo. cbn [indices values fst snd].
  set (es := entries (row m, col m) (data m)).
  set (es' := fold_left (fun acc e => insert_entry e acc) es []).
  destruct (entries_valid m Hm) as [Er Ec]. fold es in Er, Ec.
  assert (Same : forall k,
             In k (map (fun e => fst (fst e)) es' ++ map (fun e => snd (fst e)) es')
             <-> In k (row m ++ col m)).
  { intros k. rewrite <- Er, <- Ec, !index_in_use. unfold es'.
    split; intros [c [Hc Hk]]; exists c; (split; [|exact Hk]).
    - apply coords_fold_insert in Hc. destruct Hc as [Hc|[]]. exact Hc.
    - apply coords_fold_insert. now left. }
  rewrite <- (list_max_same _ _ Same).
  destruct (map (fun e => fst (fst e)) es' ++ map (fun e => snd (fst e)) es')
    as [|k ks] eqn:E; [|reflexivity].
  exfalso. destruct (row m) as [|a r]; [now apply Hne|].
  apply (proj2 (Same a)). now left.
Qed.

Lemma list_max_seq (k : nat) : list_max (seq 0 (S k)) = k.
Proof.
  induction k as [|k IH]; [reflexivity|].
  rewrite seq_S, list_max_app, IH. simpl. lia.
Qed.

(** X9.  The shape that comes back from the two conversions in a row is
    read off the indices and not off the matrix: for a matrix with at
    least one stored entry it is square, of side one more than the largest
    row or column index stored. *)
Theorem round_trip_shape_is_largest_index (m : spmatrix) :
  coo_valid m ->
  row m <> [] ->
  shape (sparse_tensor_to_scipy_matrix (sparse_scipy_matrix_to_tensor m))
  = (S (list_max (row m ++ col m)), S (list_max (row m ++ col m))).
Proof.
  apply round_trip_shape_max.
Qed.

Lemma round_trip_shape_is_largest_index_witness :
  shape (sparse_tensor_to_scipy_matrix
           (sparse_scipy_matrix_to_tensor MoreSamples.repeated))
  = (3, 3)%nat.
Proof.
  apply (round_trip_shape_is_largest_index MoreSamples.repeated).
  - split; reflexivity.
  - discriminate.
Defined.

(** X14.  For the identity matrices, the ones the constructor converts,
    the conversion back is exact: the identity of size [n >= 1] comes
    back with its shape [(n, n)] and with all its entries. *)
Theorem round_trip_identity (n : nat) :
  (1 <= n)%nat ->
  let back := sparse_tensor_to_scipy_matrix
                (sparse_scipy_matrix_to_tensor (Sparse.identity n)) in
  shape back = shape (Sparse.identity n)
  /\ forall i j, sp_get back i j = sp_get (Sparse.identity n) i j.
Proof.
  intros Hn. cbv zeta. split; [|intros i j; apply round_trip_entries].
  destruct n as [|k]; [lia|].
  rewrite round_trip_shape_max.
  - cbn [Sparse.identity Sparse.row Sparse.col shape].
    now rewrite list_max_app, list_max_seq, Nat.max_id.
  - unfold coo_valid. cbn [Sparse.identity Sparse.row Sparse.col Sparse.data].
    now rewrite repeat_length, length_seq.
  - discriminate.
Qed.

Lemma round_trip_identity_witness :
  shape (sparse_tensor_to_scipy_matrix
           (sparse_scipy_matrix_to_tensor (Sparse.identity 3)))
  = (3, 3)%nat
  /\ forall i j,
       sp_get (sparse_tensor_to_scipy_matrix
                 (sparse_scipy_matrix_to_tensor (Sparse.identity 3))) i j
       = sp_get (Sparse.identity 3) i j.
Proof.
  apply (round_trip_identity 3). lia.
Defined.

(** X10.  Of the adjacency matrix the constructor keeps the coordinates
    of the entries and the number of rows; the values of the entries do
    not reach the model.  Two matrices with the same coordinates and as
    many rows give the same model. *)
Theorem init_ignores_edge_values (field_dim embed_dim : nat)
  (matrix matrix' : spmatrix) (attention : bool)
  (v : FactorizationMachineModel.initial) :
  row matrix = row matrix' ->
  col matrix = col matrix' ->
  fst (shape matrix) = fst (shape matrix') ->
  FactorizationMachineModel.init field_dim embed_dim (Some matrix) attention v
  = FactorizationMachineModel.init field_dim embed_dim (Some matrix') attention v.
Proof.
  intros Hr Hc Hs. unfold FactorizationMachineModel.init,
    from_scipy_sparse_matrix, tocoo. cbn [fst].
  now rewrite Hr, Hc, Hs.
Qed.

Lemma init_ignores_edge_values_witness :
  FactorizationMachineModel.init 3 2 (Some Samples.adjacency) true Samples.values
  = FactorizationMachineModel.init 3 2 (Some MoreSamples.weighted) true Samples.values.
Proof.
  apply init_ignores_edge_values; reflexivity.
Defined.

(** ** The log of the command *)

Section CommandLog.

Context {Model Items Item Found : Type}.
Context `{Op : CLI.Operation Model Items Item Found}.

(** The loop over names that are all found and all have
    recommendations. *)
Lemma queries_all_found (finder : string -> result Found)
  (recommender : Z -> Z -> result (list (Item * Qc))) (topk : Z)
  (found : string -> Found) (recs : string -> list (Item * Qc))
  (names : list string) :
  (forall name, In name names ->
     finder name = Ok (found name)
     /\ recommender (CLI.id (found name)) topk = Ok (recs name)) ->
  forall log,
    CLI.queries finder recommender topk names log
    = (Ok CLI.RetNone, log ++ query_records found recs names).
Proof.
  induction names as [|name names IH]; intros H log.
  - simpl. now rewrite app_nil_r.
  - destruct (H name (or_introl eq_refl)) as [Ef Er].
    cbn [CLI.queries]. rewrite Ef, Er, IH by (intros n Hn; apply H; now right).
    unfold query_records. cbn [flat_map]. now rewrite <- !app_assoc.
Qed.

(** The loop only appends to the log it is given. *)
Lemma queries_extend_log (finder : string -> result Found)
  (recommender : Z -> Z -> result (list (Item * Qc))) (topk : Z)
  (names : list string) :
  forall log, exists tail,
    snd (CLI.queries finder recommender topk names log) = log ++ tail.
Proof.
  induction names as [|name names IH]; intros log; cbn [CLI.queries].
  - exists []. now rewrite app_nil_r.
  - destruct (finder name) as [r|e]; [|exists []; now rewrite app_nil_r].
    destruct (recommender (CLI.id r) topk) as [recs|e].
    + destruct (IH ((log ++ [CLI.InfoFound r; CLI.Info "looking for recommendations..."])
                      ++ map (fun ir => CLI.InfoRating (snd ir) (fst ir)) recs))
        as [tail E].
      rewrite E, <- !app_assoc. eexists. reflexivity.
    + cbn [snd]. eexists. reflexivity.
Qed.

End CommandLog.

(** X11.  When the model file loads and every name is found and has
    recommendations, the command returns [None] and has logged, after the
    two lines of the loading, for each name in the order given the item
    found, the line that the search starts, and one line per
    recommendation in the order the recommender gave them; with no name
    at all, the two lines of the loading. *)
Theorem recommend_logs_every_query
  {Model Items Item Found : Type} `{Op : CLI.Operation Model Items Item Found}
  (path : string) (names fields : list string) (topk : Z)
  (model : Model) (idrange : list nat) (items : Items)
  (found : string -> Found) (recs : string -> list (Item * Qc)) :
  CLI.load_model path = Ok (Some model, idrange, items) ->
  (forall name, In name names ->
     CLI.Finder (CLI.dropna items) fields name = Ok (found name)
     /\ CLI.Recommender idrange (CLI.dropna items) (CLI.eval_to_device model)
          (CLI.id (found name)) topk = Ok (recs name)) ->
  CLI.recommend path names fields topk
  = (Ok CLI.RetNone,
     [CLI.Info "reading model file..."; CLI.InfoLoaded model]
     ++ query_records found recs names).
Proof.
  intros Hload Hall. unfold CLI.recommend. rewrite Hload.
  now rewrite (queries_all_found _ _ topk found recs names Hall).
Qed.

Lemma recommend_logs_every_query_witness :
  CLI.recommend (Op := MoreSamples.serving) "model.pt"
    ["known"%string; "known"%string] [] 3
  = (Ok CLI.RetNone,
     [CLI.Info "reading model file..."; CLI.InfoLoaded tt]
     ++ query_records (fun _ => 1%Z) (fun _ => [("other"%string, Samples.q 1 2)])
          ["known"%string; "known"%string]).
Proof.
  apply (recommend_logs_every_query (Op := MoreSamples.serving)
           "model.pt" ["known"%string; "known"%string] [] 3 tt [1; 2]%nat tt
           (fun _ => 1%Z) (fun _ => [("other"%string, Samples.q 1 2)])).
  - reflexivity.
  - intros name [<-|[<-|[]]]; split; reflexivity.
Defined.

(** X12.  An error of the recommender for a name is not caught either:
    it leaves the command as it was raised, after the item found and the
    line that the search starts have been logged for that name, and the
    names after it are not handled. *)
Theorem recommend_stops_at_failing_recommender
  {Model Items Item Found : Type} `{Op : CLI.Operation Model Items Item Found}
  (path : string) (before after fields : list string) (name : string) (topk : Z)
  (model : Model) (idrange : list nat) (items : Items) (r : Found) (e : exn)
  (log : list CLI.log_record) :
  CLI.load_model path = Ok (Some model, idrange, items) ->
  CLI.recommend path before fields topk = (Ok CLI.RetNone, log) ->
  CLI.Finder (CLI.dropna items) fields name = Ok r ->
  CLI.Recommender idrange (CLI.dropna items) (CLI.eval_to_device model)
    (CLI.id r) topk = Raise e ->
  CLI.recommend path (before ++ name :: after) fields topk
  = (Raise e,
     log ++ [CLI.InfoFound r; CLI.Info "looking for recommendations..."]).
Proof.
  intros Hload Hbefore Hfind Hrec.
  unfold CLI.recommend in *. rewrite Hload in *.
  rewrite queries_app, Hbefore. cbn [CLI.queries]. now rewrite Hfind, Hrec.
Qed.

Lemma recommend_stops_at_failing_recommender_witness :
  CLI.recommend (Op := MoreSamples.serving) "model.pt"
    (["known"%string] ++ "lonely"%string :: ["known"%string]) [] 3
  = (Raise (OtherError "no candidates"),
     [CLI.Info "reading model file..."; CLI.InfoLoaded tt;
      CLI.InfoFound 1%Z; CLI.Info "looking for recommendations...";
      CLI.InfoRating (Samples.q 1 2) "other"%string]
     ++ [CLI.InfoFound 2%Z; CLI.Info "looking for recommendations..."]).
Proof.
  apply (recommend_stops_at_failing_recommender (Op := MoreSamples.serving)
           "model.pt" ["known"%string] ["known"%string] [] "lonely" 3
           tt [1; 2]%nat tt 2%Z (OtherError "no candidates")); reflexivity.
Defined.

(** X13.  The command only ever appends to its log: whatever happens to
    the later names, found or not, the log of a run over [before ++ after]
    starts with the whole log of a run over [before]. *)
Theorem recommend_log_grows
  {Model Items Item Found : Type} `{Op : CLI.Operation Model Items Item Found}
  (path : string) (before after fields : list string) (topk : Z) :
  exists tail,
    snd (CLI.recommend path (before ++ after) fields topk)
    = snd (CLI.recommend path before fields topk) ++ tail.
Proof.
  unfold CLI.recommend.
  destruct (CLI.load_model path) as [[[[model|] idrange] items]|e];
    try (exists []; now rewrite app_nil_r).
  rewrite queries_app.
  destruct (CLI.queries _ _ topk before _) as [[v|e] log'] eqn:E; cbn [snd].
  - apply queries_extend_log.
  - exists []. now rewrite app_nil_r.
Qed.
